(** * warp/pkg/generator: the random and text data sources

    A shallow embedding of [pkg/generator/random.go] and
    [pkg/generator/text.go].  Go's [int] and [int64] are modelled as [Z]
    (64-bit platform; see [genData_plan_in_range] for the absence
    of wrap-around in [genData]), byte slices as [list byte] (value
    semantics; capacity is not observable in the properties below), panics
    of the Go runtime as an explicit outcome, and the two unbounded [for]
    loops with fuel.  A slice that a computation goes on to fill is
    assumed to fit in memory; a capacity that is only reserved
    ([make] with a capacity) is checked against the limit of the Go
    runtime, as [makeslice] does. *)

From Stdlib Require Import ZArith List Lia Bool String Ascii.
From Stdlib.Strings Require Import Byte.
From Stdlib Require Import DecimalString DecimalN.
Import ListNotations.
Local Open Scope Z_scope.

(** ** The Go runtime: panics and possibly non-terminating computations *)
Module Runtime.

Inductive panic : Type :=
| IndexOutOfRange      (* builder[i] with i >= len(builder) *)
| DivideByZero         (* i % 0 *)
| MakeSliceLen         (* make([]byte, n) with n < 0 *)
| ContractViolation    (* fatal assertion of a collaborator *)
| MakeSliceCap.        (* make([]byte, n, c) with c out of range *)

Inductive outcome (A : Type) : Type :=
| Returns (a : A)
| Panics (p : panic)
| OutOfFuel.

Arguments Returns {A} a.
Arguments Panics {A} p.
Arguments OutOfFuel {A}.

Definition bind {A B : Type} (m : outcome A) (k : A -> outcome B) : outcome B :=
  match m with
  | Returns a => k a
  | Panics p => Panics p
  | OutOfFuel => OutOfFuel
  end.

Definition returns {A : Type} (m : outcome A) : Prop := exists a, m = Returns a.

(** [make([]byte, n)]: a zeroed slice, or a panic for a negative length. *)
Definition make_bytes (n : Z) : outcome (list byte) :=
  if n <? 0 then Panics MakeSliceLen else Returns (repeat x00 (Z.to_nat n)).

(** [runtime.maxAlloc], the largest allocation [makeslice] accepts: [1 << 48]
    bytes on 64-bit platforms such as linux/amd64. *)
Definition maxAlloc : Z := 2 ^ 48.

(** [make([]byte, n, c)], the range checks of [runtime.makeslice]: the
    request is refused when the capacity is out of range or below the
    length, with the length panic when the length alone is out of range. *)
Definition make_cap (n c : Z) : outcome (list byte) :=
  if (c <? 0) || (maxAlloc <? c) || (n <? 0) || (c <? n)
  then (if (n <? 0) || (maxAlloc <? n) then Panics MakeSliceLen
        else Panics MakeSliceCap)
  else Returns (repeat x00 (Z.to_nat n)).

Definition len {A : Type} (s : list A) : Z := Z.of_nat (List.length s).

(** The range of Go's [int64] (and of [int] on a 64-bit platform). *)
Definition int64 (z : Z) : Prop := - 2 ^ 63 <= z < 2 ^ 63.

Definition byte_of_Z (z : Z) : byte :=
  match Byte.of_N (Z.to_N (z mod 256)) with
  | Some b => b
  | None => x00
  end.

End Runtime.

Notation "x <- m ;; k" := (Runtime.bind m (fun x => k))
  (at level 61, m at next level, right associativity).

(** ** crypto/rand and fmt.Println: the process-wide effects *)
Module CRand.
Import Runtime.

(** The secure random source is an oracle: [entropy] is the sequence of
    bytes that its successful reads will deliver, [faulty k] says whether
    the [k]-th read that reaches the operating system fails, and
    [partial k] lists the bytes that such a failing read had delivered
    before its error.  [stdout] collects what [fmt.Println] prints. *)
Record World : Type := mkWorld {
  entropy : nat -> byte;
  cursor : nat;
  faulty : nat -> bool;
  reads : nat;
  stdout : list string;
  partial : nat -> list byte
}.

Definition println (s : string) (w : World) : World :=
  mkWorld (entropy w) (cursor w) (faulty w) (reads w) (stdout w ++ [s])
          (partial w).

(** What a failing read leaves in a zeroed slice of [n] bytes: fewer than
    [n] delivered bytes, then the zeros that [make] put there. *)
Definition leftover (n : nat) (w : World) : list byte :=
  firstn n (firstn (n - 1) (partial w (reads w)) ++ repeat x00 n).

(** [cRand.Read(b)] is [io.ReadFull(Reader, b)] for a [b] that [make] has
    just zeroed: a zero-length [b] never reaches the reader and cannot
    fail; a read that fails may have filled a part of [b] before.  (This
    is the [Read] that returns its error, as the callers' [err != nil]
    branches expect; from Go 1.24 on the function aborts the process
    instead.) *)
Definition Read (n : nat) (w : World) : list byte * bool * World :=
  match n with
  | O => ([], false, w)
  | S _ =>
      if faulty w (reads w)
      then (leftover n w, true,
            mkWorld (entropy w) (cursor w) (faulty w) (S (reads w)) (stdout w)
                    (partial w))
      else (map (entropy w) (seq (cursor w) n), false,
            mkWorld (entropy w) (cursor w + n) (faulty w) (S (reads w)) (stdout w)
                    (partial w))
  end.

(** The bytes and the world that a successful read of [n] bytes leaves. *)
Definition fresh (n : nat) (w : World) : list byte :=
  map (entropy w) (seq (cursor w) n).

Definition after_read (n : nat) (w : World) : World :=
  match n with
  | O => w
  | S _ => mkWorld (entropy w) (cursor w + n) (faulty w) (S (reads w)) (stdout w)
                   (partial w)
  end.

(** The next read that reaches the operating system succeeds. *)
Definition next_read_ok (w : World) : Prop := faulty w (reads w) = false.

(** No read ever fails. *)
Definition healthy (w : World) : Prop := forall k, faulty w k = false.

(** Every read fails (the platform's source is broken). *)
Definition broken (w : World) : Prop := forall k, faulty w k = true.

End CRand.

(** ** math/rand: the seeded pseudo-random generator *)
Module MathRand.
Import Runtime.

(** A source is the sequence of [Int63] values it is going to produce
    (fixed by its seed).  A generator is a source, the number of values
    drawn from it so far, and the two fields that its [Read] method keeps
    between calls: [readVal], what is left of the value being cut into
    bytes, and [readPos], the number of bytes still to take from it. *)
Definition Source : Type := nat -> Z.

Record Rand : Type := mkRand {
  output : Source;
  drawn : nat;
  readVal : Z;
  readPos : Z
}.

Definition New (src : Source) : Rand := mkRand src 0 0 0.

Definition skip (n : nat) (r : Rand) : Rand :=
  mkRand (output r) (drawn r + n) (readVal r) (readPos r).

Definition Int63n (n : Z) (r : Rand) : Z * Rand :=
  (output r (drawn r) mod n, skip 1 r).

(** One round of the loop of [read]: a fresh [Int63] when no byte is left
    of the last one, then [p[n] = byte(val); val >>= 8; pos--]. *)
Definition read_byte (r : Rand) : byte * Rand :=
  let val := if readPos r =? 0 then output r (drawn r) else readVal r in
  let pos := if readPos r =? 0 then 7 else readPos r in
  let taken := if readPos r =? 0 then S (drawn r) else drawn r in
  (byte_of_Z val, mkRand (output r) taken (Z.shiftr val 8) (pos - 1)).

Fixpoint read_bytes (n : nat) (r : Rand) : list byte * Rand :=
  match n with
  | O => ([], r)
  | S n' =>
      let b := fst (read_byte r) in
      let rest := read_bytes n' (snd (read_byte r)) in
      (b :: fst rest, snd rest)
  end.

(** The [Read] method of [Rand]: seven bytes from each [Int63], low byte
    first; it always fills the whole slice and returns a nil error. *)
Definition Read (n : nat) (r : Rand) : list byte * bool * Rand :=
  (fst (read_bytes n r), false, snd (read_bytes n r)).

(** Byte [i] of the stream that [Read] cuts from the values of [src] from
    index [b] on: seven bytes per value, low byte first. *)
Definition stream_byte (src : Source) (b i : nat) : byte :=
  byte_of_Z (Z.shiftr (src (b + i / 7)%nat) (8 * Z.of_nat (i mod 7))).

(** The generator [r] has handed out [q] bytes of the values of [src]
    from index [b] on. *)
Definition cut_at (src : Source) (b q : nat) (r : Rand) : Prop :=
  output r = src /\
  if (q mod 7 =? 0)%nat
  then readPos r = 0 /\ drawn r = (b + q / 7)%nat
  else readPos r = 7 - Z.of_nat (q mod 7) /\
       drawn r = (b + q / 7 + 1)%nat /\
       readVal r = Z.shiftr (src (b + q / 7)%nat) (8 * Z.of_nat (q mod 7)).

End MathRand.

(** ** package generator *)
Module Generator.
Import Runtime CRand.

(** *** text.go: [genData] *)

(** The three-way case split of [genData] on [compRatio] and [compWindow]:
    the triple [(uniqueStrLen, remStrLen, repeatUniqueStrLen)].  Go's [/]
    and [%] truncate towards zero: [Z.quot] and [Z.rem]. *)
Definition genData_plan (reqSize compRatio compWindow : Z) : Z * Z * Z :=
  if (0 <? compRatio) && (reqSize <=? compWindow) then
    let uniqueStrLen := Z.quot reqSize compRatio in
    let remStrLen := Z.rem reqSize compRatio in
    let repeatUniqueStrLen := uniqueStrLen * compRatio in
    if uniqueStrLen =? 0
    then (1, 0, reqSize)
    else (uniqueStrLen, remStrLen, repeatUniqueStrLen)
  else if 0 <? compRatio then
    (Z.quot compWindow compRatio,
     Z.rem compWindow compRatio,
     Z.quot compWindow compRatio * compRatio)
  else (reqSize, 0, reqSize).

(** [for int64(len(builder)) != repeatUniqueStrLen { builder = append(builder, uniqueStr...) }] *)
Fixpoint repeat_loop (fuel : nat) (uniqueStr builder : list byte)
         (repeatUniqueStrLen : Z) : outcome (list byte) :=
  if len builder =? repeatUniqueStrLen then Returns builder
  else match fuel with
       | O => OutOfFuel
       | S fuel' =>
           repeat_loop fuel' uniqueStr (builder ++ uniqueStr) repeatUniqueStrLen
       end.

(** [for i := 0; i < remStrLen; i++ { builder = append(builder, builder[i]) }]:
    [todo] iterations are left and the loop variable is [i]. *)
Fixpoint fill_loop (todo : nat) (i : nat) (builder : list byte)
  : outcome (list byte) :=
  match todo with
  | O => Returns builder
  | S todo' =>
      match nth_error builder i with
      | None => Panics IndexOutOfRange
      | Some b => fill_loop todo' (S i) (builder ++ [b])
      end
  end.

Definition genData (fuel : nat) (reqSize compRatio compWindow : Z) (w : World)
  : outcome (list byte * World) :=
  let '(uniqueStrLen, remStrLen, repeatUniqueStrLen) :=
    genData_plan reqSize compRatio compWindow in
  zeroed <- make_bytes uniqueStrLen ;;
  let '(uniqueStr, err, w1) := Read (Z.to_nat uniqueStrLen) w in
  if err then Returns ([], println "error:"%string w1)
  else
    builder <- repeat_loop fuel uniqueStr [] repeatUniqueStrLen ;;
    builder <- fill_loop (Z.to_nat remStrLen) 0 builder ;;
    Returns (builder, w1).

(** *** Configuration *)

Module RandomOpts.
Record t : Type := mk { seed : option Z; size : Z }.
End RandomOpts.

Module TextOpts.
Record t : Type := mk { seed : option Z; size : Z }.
End TextOpts.

(** Modelled from the spec: the [Options] type, declared outside the two
    files.  It has the fields that random.go and text.go read ("totalSize",
    "randomizeSize", "blockSize" per variant, "seed", "compressionRatio",
    "compressionWindow"); [namePrefix] is the "derivable string" that
    [setPrefix] takes from it. *)
Record Options : Type := mkOptions {
  totalSize : Z;
  randSize : bool;
  random : RandomOpts.t;
  text : TextOpts.t;
  compRatio : Z;
  compWindow : Z;
  namePrefix : string
}.

(** Modelled from the spec: [Options.getSize], missing from the sources.
    "determine object size via Configuration (fixed or uniformly randomized
    up to totalSize)": the fixed size is [totalSize] and leaves the
    generator untouched, the randomized one is a draw in [0, totalSize]. *)
Definition getSize (o : Options) (rng : MathRand.Rand) : Z * MathRand.Rand :=
  if randSize o then MathRand.Int63n (totalSize o + 1) rng
  else (totalSize o, rng).

(** *** The circular reader *)

(** Modelled from the spec: the [circularBuffer] type, declared outside
    the two files, with the two fields that they read and write. *)
Record circularBuffer : Type := mkCircularBuffer {
  data : list byte;
  want : Z
}.

(** Modelled from the spec: [newCircularBuffer], missing from the sources;
    it wraps the seed buffer and records the wanted length. *)
Definition newCircularBuffer (seedData : list byte) (size : Z) : circularBuffer :=
  mkCircularBuffer seedData size.

(** What reading a cursor end-to-end yields: the buffer repeated, truncated
    at the final repetition. *)
Definition drain (buffer : list byte) (n : nat) : list byte :=
  firstn n (List.concat (repeat buffer n)).

(** Modelled from the spec: [circularBuffer.Reset], missing from the
    sources.  "returns a stream cursor over the seed buffer such that
    reading it end-to-end yields exactly requestedLength bytes, with content
    equal to the seed buffer repeated (and truncated at the final
    repetition) until the length is reached"; a negative length and a
    length that the buffer cannot represent (nothing to cycle through) are
    contract violations, fatal.  The cursor is represented by the bytes
    that draining it yields. *)
Definition Reset (c : circularBuffer) (requestedLength : Z) : outcome (list byte) :=
  if requestedLength <? 0 then Panics ContractViolation
  else if (0 <? requestedLength) && (len (data c) =? 0) then Panics ContractViolation
  else Returns (drain (data c) (Z.to_nat requestedLength)).

(** *** Object *)

(** Modelled from the spec: the [Object] type, declared outside the two
    files ("stream handle, name, content type, size, logical prefix"). *)
Record Object : Type := mkObject {
  Reader : option (list byte);   (* nil, or the bytes the stream yields *)
  Name : string;
  ContentType : string;
  Size : Z;
  Prefix : string
}.

(** Modelled from the spec: [Object.setPrefix] and [Object.setName],
    missing from the sources: the prefix is the one derived from the
    configuration, stable per instance, and the name is assigned as given. *)
Definition setPrefix (o : Options) (obj : Object) : Object :=
  mkObject (Reader obj) (Name obj) (ContentType obj) (Size obj) (namePrefix o).

Definition setName (s : string) (obj : Object) : Object :=
  mkObject (Reader obj) s (ContentType obj) (Size obj) (Prefix obj).

Definition setSize (n : Z) (obj : Object) : Object :=
  mkObject (Reader obj) (Name obj) (ContentType obj) n (Prefix obj).

Definition setReader (r : list byte) (obj : Object) : Object :=
  mkObject (Some r) (Name obj) (ContentType obj) (Size obj) (Prefix obj).

(** Modelled from the spec: the alphabet of [randASCIIBytes], the
    alphanumeric characters. *)
Definition asciiLetters : list byte :=
  list_byte_of_string
    "0123456789abcdefghijklmnopqrstuvwxyzABCDEFGHIJKLMNOPQRSTUVWXYZ".

(** Modelled from the spec: [randASCIIBytes], missing from the sources: it
    fills the slice with "random alphanumeric" characters taken from the
    seeded generator. *)
Definition randASCIIBytes (n : nat) (rng : MathRand.Rand)
  : list byte * MathRand.Rand :=
  (map (fun k => nth (Z.to_nat (MathRand.output rng k mod 62)) asciiLetters x00)
       (seq (MathRand.drawn rng) n),
   MathRand.skip n rng).

(** [fmt.Sprintf("%d", n)] for an unsigned [n]. *)
Definition sprint_d (n : Z) : string :=
  NilEmpty.string_of_uint (N.to_uint (Z.to_N n)).

Inductive error : Type :=
| Errorf (format : string) (arg : Z)
| ReadError.

(** *** random.go: [plainSrc], the source that [newRandom] builds *)

(** [dst[i] = b] for an index in range. *)
Fixpoint set_index (i : nat) (b : byte) (s : list byte) : list byte :=
  match s, i with
  | [], _ => []
  | _ :: s', O => b :: s'
  | x :: s', S i' => x :: set_index i' b s'
  end.

(** [for i := splitLength; i < len(dst); i++ { dst[i] = dst[i%splitLength] }]:
    the length of [dst] does not change, so the number of iterations
    [todo] is known on entry. *)
Fixpoint split_loop (todo : nat) (i splitLength : Z) (dst : list byte)
  : outcome (list byte) :=
  match todo with
  | O => Returns dst
  | S todo' =>
      if splitLength =? 0 then Panics DivideByZero
      else match nth_error dst (Z.to_nat (Z.rem i splitLength)) with
           | None => Panics IndexOutOfRange
           | Some b =>
               split_loop todo' (i + 1) splitLength (set_index (Z.to_nat i) b dst)
           end
  end.

Module plainSrc.

Record t : Type := mk {
  o : Options;
  rng : MathRand.Rand;
  obj : Object;
  buf : circularBuffer;
  builder : list byte
}.

(** [func (c *plainSrc) Object() *Object]: the returned pointer is
    [&c.obj], read here as [obj] of the updated source. *)
Definition Object (c : t) (w : World) : outcome (t * World) :=
  let dst := firstn 0 (data (buf c)) in
  let '(size, rng1) := getSize (o c) (rng c) in
  let obj1 := setSize size (obj c) in
  zeroed <- make_bytes size ;;
  let '(build, err, w1) := Read (Z.to_nat size) w in
  let w2 := if err then println "error:"%string w1 else w1 in
  let dst := dst ++ build in
  let splitLength := Z.quot (len dst) 4 in
  dst <- split_loop (Z.to_nat (len dst - splitLength)) splitLength splitLength dst ;;
  let buf1 := mkCircularBuffer dst (want (buf c)) in
  reader <- Reset buf1 0 ;;
  let obj2 := setReader reader obj1 in
  let '(nBuf, rng2) := randASCIIBytes 16 rng1 in
  let obj3 := setName (string_of_list_byte nBuf ++ ".txt")%string obj2 in
  Returns (mk (o c) rng2 obj3 buf1 (builder c), w2).

End plainSrc.

(** *** text.go: [textSrc] *)

(** [for int64(len(builder)) < t.obj.Size { ... append(builder, genData(...)...) }] *)
Fixpoint build_loop (fuel inner : nat) (size ratio window : Z)
         (builder : list byte) (w : World) : outcome (list byte * World) :=
  if len builder <? size then
    match fuel with
    | O => OutOfFuel
    | S fuel' =>
        let reqSize := size - len builder in
        r <- genData inner reqSize ratio window w ;;
        build_loop fuel' inner size ratio window (builder ++ fst r) (snd r)
    end
  else Returns (builder, w).

Module textSrc.

Record t : Type := mk {
  counter : Z;
  o : Options;
  buf : circularBuffer;
  rng : MathRand.Rand;
  obj : Object
}.

(** [func (t *textSrc) Object() *Object]; [counter] is a [uint64]. *)
Definition Object (fuel : nat) (s : t) (w : World) : outcome (t * World) :=
  let counter1 := (counter s + 1) mod 2 ^ 64 in
  let '(size, rng1) := getSize (o s) (rng s) in
  let obj1 := setSize size (obj s) in
  r <- build_loop fuel fuel size (compRatio (o s)) (compWindow (o s)) [] w ;;
  let buf1 := mkCircularBuffer (fst r) (want (buf s)) in
  let '(nBuf, rng2) := randASCIIBytes 16 rng1 in
  let obj2 :=
    setName (sprint_d counter1 ++ "." ++ string_of_list_byte nBuf ++ ".txt")%string
            obj1 in
  reader <- Reset buf1 size ;;
  let obj3 := setReader reader obj2 in
  Returns (mk counter1 (o s) buf1 rng2 obj3, snd r).

End textSrc.

(** *** The [Source] interface and the two constructors *)

Inductive Source : Type :=
| PlainSrc (c : plainSrc.t)
| TextSrc (t : textSrc.t).

Section Constructors.

(** [rand.NewSource]: the output sequence that a seed determines. *)
Variable NewSource : Z -> MathRand.Source.

(** [rand.NewSource(int64(rand.Uint64()))], overridden by an explicit
    seed; [global] is the value the package-level generator hands out. *)
Definition seeded (global : Z) (seed : option Z) : MathRand.Rand :=
  let rndSrc := NewSource global in
  let rndSrc := match seed with Some s => NewSource s | None => rndSrc end in
  MathRand.New rndSrc.

Definition newRandom (global : Z) (o : Options)
  : outcome (option Source * option error) :=
  let rng := seeded global (RandomOpts.seed (random o)) in
  let size := RandomOpts.size (random o) in
  let size := if size >? totalSize o then totalSize o else size in
  if size <=? 0 then Returns (None, Some (Errorf "size must be >= 0, got %d" size))
  else
    let '(seedData, err, rng1) := MathRand.Read (Z.to_nat size) rng in
    if err then Returns (None, Some ReadError)
    else
      builder <- make_cap 0 (totalSize o) ;;
      let obj := mkObject None "" "text/plain" 0 "" in
      Returns
        (Some (PlainSrc (plainSrc.mk o rng1 (setPrefix o obj)
                           (newCircularBuffer seedData (totalSize o)) builder)),
         None).

Definition newText (global : Z) (o : Options) : option Source * option error :=
  let rng := seeded global (TextOpts.seed (text o)) in
  let size := TextOpts.size (text o) in
  let size := if size >? totalSize o then totalSize o else size in
  if size <=? 0 then (None, Some (Errorf "size must be >= 0, got %d" size))
  else
    let '(seedData, err, rng1) := MathRand.Read (Z.to_nat size) rng in
    if err then (None, Some ReadError)
    else
      let obj := mkObject None "" "text/plain" 0 "" in
      (Some (TextSrc (textSrc.mk 0 o (newCircularBuffer seedData size) rng1
                        (setPrefix o obj))),
       None).

End Constructors.

(** [Source.Object()] through the interface. *)
Definition Source_Object (fuel : nat) (s : Source) (w : World)
  : outcome (Source * World) :=
  match s with
  | PlainSrc c => r <- plainSrc.Object c w ;; Returns (PlainSrc (fst r), snd r)
  | TextSrc t => r <- textSrc.Object fuel t w ;; Returns (TextSrc (fst r), snd r)
  end.

Definition Source_obj (s : Source) : Object :=
  match s with
  | PlainSrc c => plainSrc.obj c
  | TextSrc t => textSrc.obj t
  end.

Definition Source_buf (s : Source) : circularBuffer :=
  match s with
  | PlainSrc c => plainSrc.buf c
  | TextSrc t => textSrc.buf t
  end.

(** The source with the bytes of its buffer replaced by [bytes]. *)
Definition Source_with_data (bytes : list byte) (s : Source) : Source :=
  match s with
  | PlainSrc c =>
      PlainSrc (plainSrc.mk (plainSrc.o c) (plainSrc.rng c) (plainSrc.obj c)
                  (mkCircularBuffer bytes (want (plainSrc.buf c)))
                  (plainSrc.builder c))
  | TextSrc t =>
      TextSrc (textSrc.mk (textSrc.counter t) (textSrc.o t)
                 (mkCircularBuffer bytes (want (textSrc.buf t)))
                 (textSrc.rng t) (textSrc.obj t))
  end.

(** The 16 characters that the next [Object()] call of a [plainSrc] draws
    for the name, after its size draw. *)
Definition next_suffix (c : plainSrc.t) : list byte :=
  fst (randASCIIBytes 16 (snd (getSize (plainSrc.o c) (plainSrc.rng c)))).

(** *** random.go and text.go: the option builders *)

(** What [errors.New] returns. *)
Inductive validation_error : Type :=
| ErrorsNew (msg : string).

Definition randomOptsDefaults : RandomOpts.t :=
  RandomOpts.mk None (Z.shiftl 128 10).

Definition WithRandomData : RandomOpts.t := randomOptsDefaults.

Definition RandomOpts_validate (o : RandomOpts.t) : option validation_error :=
  if RandomOpts.size o <=? 0 then Some (ErrorsNew "random: size <= 0") else None.

Definition RandomOpts_RngSeed (s : Z) (o : RandomOpts.t) : RandomOpts.t :=
  RandomOpts.mk (Some s) (RandomOpts.size o).

Definition RandomOpts_Size (s : Z) (o : RandomOpts.t) : RandomOpts.t :=
  RandomOpts.mk (RandomOpts.seed o) s.

Definition textOptsDefaults : TextOpts.t :=
  TextOpts.mk None (Z.shiftl 128 10).

Definition WithTextData : TextOpts.t := textOptsDefaults.

Definition TextOpts_validate (o : TextOpts.t) : option validation_error :=
  if TextOpts.size o <=? 0 then Some (ErrorsNew "text: size <= 0") else None.

Definition TextOpts_RngSeed (s : Z) (o : TextOpts.t) : TextOpts.t :=
  TextOpts.mk (Some s) (TextOpts.size o).

Definition TextOpts_Size (s : Z) (o : TextOpts.t) : TextOpts.t :=
  TextOpts.mk (TextOpts.seed o) s.

(** The constructor that [opts.src] holds. *)
Inductive constructor : Type :=
| SrcNewRandom
| SrcNewText.

(** The [Options] value that an [Option] mutates through its pointer: the
    fields above together with [src], the constructor chosen so far. *)
Record OptionsCell : Type := mkCell {
  fields : Options;
  src : option constructor
}.

(** [func (o RandomOpts) Apply() Option]: the returned closure, applied to
    the options it is given. *)
Definition RandomOpts_Apply (o : RandomOpts.t) (opts : OptionsCell)
  : OptionsCell * option validation_error :=
  match RandomOpts_validate o with
  | Some err => (opts, Some err)
  | None =>
      (mkCell (mkOptions (totalSize (fields opts)) (randSize (fields opts)) o
                 (text (fields opts)) (compRatio (fields opts))
                 (compWindow (fields opts)) (namePrefix (fields opts)))
              (Some SrcNewRandom),
       None)
  end.

Definition TextOpts_Apply (o : TextOpts.t) (opts : OptionsCell)
  : OptionsCell * option validation_error :=
  match TextOpts_validate o with
  | Some err => (opts, Some err)
  | None =>
      (mkCell (mkOptions (totalSize (fields opts)) (randSize (fields opts))
                 (random (fields opts)) o (compRatio (fields opts))
                 (compWindow (fields opts)) (namePrefix (fields opts)))
              (Some SrcNewText),
       None)
  end.

(** Calling [opts.src(opts)], when a constructor was chosen. *)
Definition construct (NewSource : Z -> MathRand.Source) (global : Z)
           (opts : OptionsCell)
  : option (outcome (option Source * option error)) :=
  match src opts with
  | Some SrcNewRandom => Some (newRandom NewSource global (fields opts))
  | Some SrcNewText => Some (Returns (newText NewSource global (fields opts)))
  | None => None
  end.

(** *** random.go and text.go: [String] and [Prefix] *)

(** [fmt.Sprintf("%d", n)] for an [int64]. *)
Definition sprint_int64 (n : Z) : string :=
  if n <? 0 then ("-" ++ sprint_d (- n))%string else sprint_d n.

Definition plainSrc_String (r : plainSrc.t) : string :=
  if randSize (plainSrc.o r)
  then ("Random data; random size up to "
          ++ sprint_int64 (totalSize (plainSrc.o r)) ++ " bytes")%string
  else ("Random data; " ++ sprint_int64 (want (plainSrc.buf r))
          ++ " bytes total")%string.

Definition textSrc_String (t : textSrc.t) : string :=
  if randSize (textSrc.o t)
  then ("Text data; random size up to "
          ++ sprint_int64 (totalSize (textSrc.o t)) ++ " bytes")%string
  else ("Text data; " ++ sprint_int64 (want (textSrc.buf t))
          ++ " bytes total")%string.

Definition plainSrc_Prefix (r : plainSrc.t) : string := Prefix (plainSrc.obj r).

Definition textSrc_Prefix (t : textSrc.t) : string := Prefix (textSrc.obj t).

Definition Source_String (s : Source) : string :=
  match s with
  | PlainSrc c => plainSrc_String c
  | TextSrc t => textSrc_String t
  end.

Definition Source_Prefix (s : Source) : string :=
  match s with
  | PlainSrc c => plainSrc_Prefix c
  | TextSrc t => textSrc_Prefix t
  end.

(** *** A driver: [k] successive [Object()] calls on one Text Source,
    collecting the names of the objects handed back *)
Fixpoint textSrc_Objects (k fuel : nat) (s : textSrc.t) (w : World)
  : outcome (list string * textSrc.t * World) :=
  match k with
  | O => Returns ([], s, w)
  | S k' =>
      r <- textSrc.Object fuel s w ;;
      rest <- textSrc_Objects k' fuel (fst r) (snd r) ;;
      Returns (Name (textSrc.obj (fst r)) :: fst (fst rest),
               snd (fst rest), snd rest)
  end.

End Generator.

(** ** Concrete configurations and instances *)
Module Samples.
Import Runtime CRand Generator.

(** A secure source that delivers the letters A, B, C, ... and never
    fails, and one on which every read fails. *)
Definition letters_world : World :=
  mkWorld (fun k => byte_of_Z (Z.of_nat k + 65)) 0 (fun _ => false) 0 []
          (fun _ => []).

Definition broken_world : World :=
  mkWorld (fun k => byte_of_Z (Z.of_nat k + 65)) 0 (fun _ => true) 0 []
          (fun _ => list_byte_of_string "xyz").

(** Two seeded generators.  The first value of both packs the bytes
    00 01 02 03, low byte first, which is what [Read] cuts a seed buffer
    of four bytes from; after it one counts up from [seed + 4] and the
    other has period 16. *)
Definition counting : Z -> MathRand.Source :=
  fun seed k =>
    match k with
    | O => seed + 50462976
    | S _ => seed + Z.of_nat k + 3
    end.

Definition cyclic : Z -> MathRand.Source :=
  fun seed k =>
    match k with
    | O => seed + 50462976
    | S _ => seed + Z.of_nat ((k + 3) mod 16)
    end.

(** A configuration with block size 4 and an explicit seed 0. *)
Definition options (total : Z) (randomized : bool) (ratio window : Z) : Options :=
  mkOptions total randomized (RandomOpts.mk (Some 0) 4) (TextOpts.mk (Some 0) 4)
            ratio window "bench".

Definition no_object : Object := mkObject None "" "" 0 "".

(** The instances that the constructors build from a configuration. *)
Definition plain_of (src : Z -> MathRand.Source) (o : Options) : plainSrc.t :=
  match newRandom src 7 o with
  | Returns (Some (PlainSrc c), _) => c
  | _ => plainSrc.mk o (MathRand.New (src 0)) no_object (mkCircularBuffer [] 0) []
  end.

Definition text_of (src : Z -> MathRand.Source) (o : Options) : textSrc.t :=
  match newText src 7 o with
  | (Some (TextSrc t), _) => t
  | _ => textSrc.mk 0 o (mkCircularBuffer [] 0) (MathRand.New (src 0)) no_object
  end.

(** The value a computation returns, or [default] when it does not. *)
Definition result_of {A : Type} (m : outcome A) (default : A) : A :=
  match m with
  | Returns a => a
  | _ => default
  end.

(** A Random Source of fixed size 8, and what its first [Object()] call on
    [letters_world] leaves. *)
Definition plain8 : plainSrc.t := plain_of counting (options 8 false 0 0).

Definition plain8_after : plainSrc.t * World :=
  result_of (plainSrc.Object plain8 letters_world) (plain8, letters_world).

(** A Text Source of fixed size 8 with ratio 2 and window 4. *)
Definition text8 : textSrc.t := text_of counting (options 8 false 2 4).

Definition text8_after : textSrc.t * World :=
  result_of (textSrc.Object 8 text8 letters_world) (text8, letters_world).

(** A Random Source whose seeded generator has period 16, and its first
    two [Object()] calls. *)
Definition cyclic8 : plainSrc.t := plain_of cyclic (options 8 false 0 0).

Definition cyclic8_first : plainSrc.t * World :=
  result_of (plainSrc.Object cyclic8 letters_world) (cyclic8, letters_world).

Definition cyclic8_second : plainSrc.t * World :=
  result_of (plainSrc.Object (fst cyclic8_first) (snd cyclic8_first)) cyclic8_first.

(** Text Sources of fixed size 1: with ratio 1 and window 0, and without
    compressibility control. *)
Definition text1_window0 : textSrc.t := text_of counting (options 1 false 1 0).

Definition text1_plain : textSrc.t := text_of counting (options 1 false 0 0).

(** A Random Source of fixed size 2. *)
Definition plain2 : plainSrc.t := plain_of counting (options 2 false 0 0).

(** A Text Source whose seeded generator has period 16, and its first two
    [Object()] calls through the driver. *)
Definition cyclic_text8 : textSrc.t := text_of cyclic (options 8 false 2 4).

Definition cyclic_text8_twice : list string * textSrc.t * World :=
  result_of (textSrc_Objects 2 8 cyclic_text8 letters_world)
            ([], cyclic_text8, letters_world).

(** A secure source whose first read fails and whose later reads work. *)
Definition flaky_world : World :=
  mkWorld (fun k => byte_of_Z (Z.of_nat k + 65)) 0 (fun k => Nat.eqb k 0) 0 []
          (fun _ => list_byte_of_string "xyz").

(** A Text Source of fixed size 8 without compressibility control. *)
Definition text8_plain : textSrc.t := text_of counting (options 8 false 0 0).

(** A Text Source of fixed size 14 with ratio 4 and window 100. *)
Definition text14 : textSrc.t := text_of counting (options 14 false 4 100).

End Samples.

(** * Properties *)

Import Runtime CRand Generator Samples.

Section Loops.

Lemma len_app {A : Type} (a b : list A) : len (a ++ b) = len a + len b.
Proof. unfold len. rewrite length_app. lia. Qed.

Lemma len_concat_repeat (u : list byte) (k : nat) :
  len (List.concat (repeat u k)) = Z.of_nat k * len u.
Proof.
  induction k as [|k IH]; [reflexivity|].
  cbn [repeat List.concat]. rewrite len_app, IH. lia.
Qed.

Lemma repeat_loop_eq fuel u b target :
  repeat_loop fuel u b target =
  if len b =? target then Returns b
  else match fuel with
       | O => OutOfFuel
       | S fuel' => repeat_loop fuel' u (b ++ u) target
       end.
Proof. destruct fuel; reflexivity. Qed.

Lemma repeat_loop_copies (k : nat) :
  forall fuel u b,
    (k <= fuel)%nat -> 0 < len u ->
    repeat_loop fuel u b (len b + Z.of_nat k * len u)
    = Returns (b ++ List.concat (repeat u k)).
Proof.
  induction k as [|k IH]; intros fuel u b Hfuel Hu; rewrite repeat_loop_eq.
  - replace (len b + Z.of_nat 0 * len u) with (len b) by lia.
    rewrite Z.eqb_refl. simpl. now rewrite app_nil_r.
  - destruct (Z.eqb_spec (len b) (len b + Z.of_nat (S k) * len u)) as [E|_]; [nia|].
    destruct fuel as [|fuel]; [lia|].
    replace (len b + Z.of_nat (S k) * len u)
      with (len (b ++ u) + Z.of_nat k * len u) by (rewrite len_app; lia).
    rewrite IH by (auto; lia). simpl. now rewrite app_assoc.
Qed.

Lemma fill_loop_returns (todo : nat) :
  forall i b,
    (i < List.length b)%nat ->
    exists b', fill_loop todo i b = Returns b' /\
               len b' = len b + Z.of_nat todo /\
               firstn (List.length b) b' = b.
Proof.
  induction todo as [|todo IH]; intros i b Hi; cbn [fill_loop].
  - exists b. split; [reflexivity|]. split; [lia|]. apply firstn_all.
  - destruct (nth_error b i) as [x|] eqn:E.
    + destruct (IH (S i) (b ++ [x])) as (b' & Hrun & Hlen & Hpre).
      { rewrite length_app. simpl. lia. }
      exists b'. split; [exact Hrun|]. split.
      * rewrite Hlen, len_app. unfold len. cbn [List.length]. lia.
      * rewrite length_app in Hpre. simpl in Hpre.
        assert (H : firstn (List.length b) (firstn (List.length b + 1) b') = firstn (List.length b) (b ++ [x]))
          by now rewrite Hpre.
        rewrite firstn_firstn, Nat.min_l in H by lia.
        rewrite H, firstn_app, firstn_all, Nat.sub_diag. simpl. apply app_nil_r.
    + apply nth_error_None in E. lia.
Qed.

Lemma fill_loop_empty_panics (todo : nat) (i : nat) :
  fill_loop (S todo) i [] = Panics IndexOutOfRange.
Proof. simpl. now destruct i. Qed.

Lemma Read_ok n w :
  next_read_ok w -> Read n w = (fresh n w, false, after_read n w).
Proof.
  unfold next_read_ok, Read, fresh, after_read. intros H.
  destruct n; [reflexivity|]. now rewrite H.
Qed.

Lemma faulty_after_read n w : faulty (after_read n w) = faulty w.
Proof. now destruct n. Qed.

Lemma len_fresh n w : len (fresh n w) = Z.of_nat n.
Proof. unfold len, fresh. now rewrite length_map, length_seq. Qed.

Lemma make_bytes_ok n : 0 <= n -> make_bytes n = Returns (repeat x00 (Z.to_nat n)).
Proof. unfold make_bytes. intros H. destruct (Z.ltb_spec n 0); [lia|reflexivity]. Qed.

(** The common shape of a run of [genData] once the case split has chosen
    a unique length [u >= 1], a remainder [r] and a repeat length of [k]
    whole copies. *)
Lemma genData_run fuel reqSize ratio window w u r k :
  genData_plan reqSize ratio window = (u, r, Z.of_nat k * u) ->
  1 <= u -> 0 <= r -> (0 < r -> (1 <= k)%nat) ->
  next_read_ok w -> (k <= fuel)%nat ->
  exists b,
    genData fuel reqSize ratio window w = Returns (b, after_read (Z.to_nat u) w) /\
    len b = Z.of_nat k * u + r /\
    firstn (Z.to_nat (Z.of_nat k * u)) b
    = List.concat (repeat (fresh (Z.to_nat u) w) k).
Proof.
  intros Hplan Hu Hr Hk Hok Hfuel. unfold genData. rewrite Hplan.
  rewrite make_bytes_ok by lia. cbn [bind].
  rewrite Read_ok by assumption.
  set (uniq := fresh (Z.to_nat u) w).
  assert (Hlen : len uniq = u) by (unfold uniq; rewrite len_fresh; lia).
  pose proof (repeat_loop_copies k fuel uniq [] Hfuel) as Hrep.
  rewrite Hlen in Hrep. change (len (@nil byte)) with 0 in Hrep.
  rewrite Z.add_0_l in Hrep. rewrite Hrep by lia. cbn [bind app].
  set (whole := List.concat (repeat uniq k)).
  assert (Hwhole : len whole = Z.of_nat k * u)
    by (unfold whole; rewrite len_concat_repeat, Hlen; reflexivity).
  assert (Hnat : Z.to_nat (Z.of_nat k * u) = List.length whole)
    by (rewrite <- Hwhole; unfold len; now rewrite Nat2Z.id).
  destruct (Z.eq_dec r 0) as [-> | Hpos].
  - cbn [Z.to_nat fill_loop bind]. exists whole. split; [reflexivity|].
    split; [lia|]. rewrite Hnat. apply firstn_all.
  - destruct (fill_loop_returns (Z.to_nat r) 0 whole) as (b & Hrun & Hb & Hpre).
    { assert (0 < len whole) by nia. unfold len in *. lia. }
    rewrite Hrun. cbn [bind]. exists b. split; [reflexivity|].
    split; [rewrite Hb; lia|]. now rewrite Hnat.
Qed.

End Loops.

Section Plan.

Lemma plan_uncompressed reqSize ratio window :
  ratio <= 0 -> genData_plan reqSize ratio window = (reqSize, 0, reqSize).
Proof.
  intros H. unfold genData_plan.
  destruct (Z.ltb_spec 0 ratio); [lia|reflexivity].
Qed.

Lemma plan_in_window reqSize ratio window :
  0 < ratio -> ratio <= reqSize -> reqSize <= window ->
  genData_plan reqSize ratio window
  = (Z.quot reqSize ratio, Z.rem reqSize ratio, Z.quot reqSize ratio * ratio).
Proof.
  intros H1 H2 H3. unfold genData_plan.
  destruct (Z.ltb_spec 0 ratio); [|lia].
  destruct (Z.leb_spec reqSize window); [|lia]. cbn [andb].
  destruct (Z.eqb_spec (Z.quot reqSize ratio) 0) as [E|_]; [|reflexivity].
  apply Z.quot_small_iff in E; lia.
Qed.

Lemma plan_small reqSize ratio window :
  0 <= reqSize < ratio -> reqSize <= window ->
  genData_plan reqSize ratio window = (1, 0, reqSize).
Proof.
  intros H1 H2. unfold genData_plan.
  destruct (Z.ltb_spec 0 ratio); [|lia].
  destruct (Z.leb_spec reqSize window); [|lia]. cbn [andb].
  rewrite Z.quot_small by lia. reflexivity.
Qed.

Lemma plan_capped reqSize ratio window :
  0 < ratio -> window < reqSize ->
  genData_plan reqSize ratio window
  = (Z.quot window ratio, Z.rem window ratio, Z.quot window ratio * ratio).
Proof.
  intros H1 H2. unfold genData_plan.
  destruct (Z.ltb_spec 0 ratio); [|lia].
  destruct (Z.leb_spec reqSize window); [lia|]. reflexivity.
Qed.

Lemma quot_rem_pos a b :
  0 <= a -> 0 < b ->
  0 <= Z.quot a b /\ 0 <= Z.rem a b < b /\ a = Z.quot a b * b + Z.rem a b.
Proof.
  intros Ha Hb. split; [apply Z.quot_pos; lia|].
  split; [apply Z.rem_bound_pos; lia|].
  rewrite (Z.quot_rem' a b) at 1. lia.
Qed.

(** X19.  The values that the case split of [genData] computes stay within
    the range of [int64] whenever its arguments are: the model's unbounded
    arithmetic agrees with Go's. *)
Lemma genData_plan_in_range reqSize ratio window :
  int64 reqSize -> int64 ratio -> int64 window ->
  int64 (fst (fst (genData_plan reqSize ratio window))) /\
  int64 (snd (fst (genData_plan reqSize ratio window))) /\
  int64 (snd (genData_plan reqSize ratio window)).
Proof.
  unfold int64. intros Hq Hr Hw. unfold genData_plan.
  assert (Hbound : forall a, 0 < ratio ->
            Z.min a 0 <= Z.quot a ratio <= Z.max a 0 /\
            - ratio < Z.rem a ratio < ratio /\
            Z.min a 0 <= Z.quot a ratio * ratio <= Z.max a 0).
  { intros a Hpos.
    destruct (Z_le_gt_dec 0 a) as [Ha|Ha].
    - destruct (quot_rem_pos a ratio) as (H1 & H2 & H3); [lia|lia|]. nia.
    - pose proof (Z.rem_bound_pos_neg a ratio ltac:(lia) ltac:(lia)).
      pose proof (Z.mul_quot_ge a ratio ltac:(lia) ltac:(lia)).
      split; [|split]; nia. }
  destruct (Z.ltb_spec 0 ratio) as [Hpos|Hnp]; cbn [andb].
  - destruct (Z.leb_spec reqSize window).
    + destruct (Hbound reqSize Hpos) as (H1 & H2 & H3).
      destruct (Z.eqb_spec (Z.quot reqSize ratio) 0); cbn [fst snd]; lia.
    + destruct (Hbound window Hpos) as (H1 & H2 & H3). cbn [fst snd]. lia.
  - cbn [fst snd]. lia.
Qed.

(** The length of what [genData] returns, in the three cases in which the
    unique block is not empty. *)
Lemma genData_returns_len fuel reqSize ratio window w :
  1 <= reqSize -> 0 <= ratio -> 1 <= window ->
  ratio = 0 \/ reqSize <= window \/ ratio <= window ->
  next_read_ok w -> (Z.to_nat reqSize <= fuel)%nat ->
  exists b w',
    genData fuel reqSize ratio window w = Returns (b, w') /\
    len b = (if (0 <? ratio) && (window <? reqSize) then window else reqSize) /\
    faulty w' = faulty w.
Proof.
  intros Hreq Hratio Hwin Hsafe Hok Hfuel.
  destruct (Z.ltb_spec 0 ratio) as [Hpos|Hzero]; cbn [andb].
  - destruct (Z.ltb_spec window reqSize) as [Hcap|Hin].
    + (* window-capped *)
      assert (Hrw : ratio <= window) by lia.
      destruct (quot_rem_pos window ratio) as (Hq & Hr & Heq); [lia|lia|].
      assert (Hq1 : 1 <= Z.quot window ratio).
      { destruct (Z.eq_dec (Z.quot window ratio) 0) as [E|]; [|lia].
        apply Z.quot_small_iff in E; lia. }
      destruct (genData_run fuel reqSize ratio window w
                  (Z.quot window ratio) (Z.rem window ratio) (Z.to_nat ratio))
        as (b & Hrun & Hb & _); try lia; try assumption.
      { rewrite plan_capped by lia. rewrite Z2Nat.id by lia.
        now rewrite Z.mul_comm. }
      exists b, (after_read (Z.to_nat (Z.quot window ratio)) w).
      split; [exact Hrun|]. split; [|apply faulty_after_read].
      rewrite Hb, Z2Nat.id by lia. lia.
    + destruct (Z_lt_le_dec reqSize ratio) as [Hsmall|Hbig].
      * (* single repeated byte *)
        destruct (genData_run fuel reqSize ratio window w 1 0 (Z.to_nat reqSize))
          as (b & Hrun & Hb & _); try lia; try assumption.
        { rewrite plan_small by lia. rewrite Z2Nat.id by lia.
          now rewrite Z.mul_1_r. }
        exists b, (after_read (Z.to_nat 1) w).
        split; [exact Hrun|]. split; [|apply faulty_after_read].
        rewrite Hb, Z2Nat.id by lia. lia.
      * destruct (quot_rem_pos reqSize ratio) as (Hq & Hr & Heq); [lia|lia|].
        assert (Hq1 : 1 <= Z.quot reqSize ratio).
        { destruct (Z.eq_dec (Z.quot reqSize ratio) 0) as [E|]; [|lia].
          apply Z.quot_small_iff in E; lia. }
        destruct (genData_run fuel reqSize ratio window w
                    (Z.quot reqSize ratio) (Z.rem reqSize ratio) (Z.to_nat ratio))
          as (b & Hrun & Hb & _); try lia; try assumption.
        { rewrite plan_in_window by lia. rewrite Z2Nat.id by lia.
          now rewrite Z.mul_comm. }
        exists b, (after_read (Z.to_nat (Z.quot reqSize ratio)) w).
        split; [exact Hrun|]. split; [|apply faulty_after_read].
        rewrite Hb, Z2Nat.id by lia. lia.
  - (* no compressibility control *)
    destruct (genData_run fuel reqSize ratio window w reqSize 0 1)
      as (b & Hrun & Hb & _); try lia; try assumption.
    { rewrite plan_uncompressed by lia. now rewrite Z.mul_1_l. }
    exists b, (after_read (Z.to_nat reqSize) w).
    split; [exact Hrun|]. split; [|apply faulty_after_read].
    rewrite Hb. lia.
Qed.

End Plan.

Section GenDataClaims.

(** C2, as amended: for [reqSize >= 1], [compRatio >= 0] and
    [compWindow >= 1], when the secure random read succeeds, [genData]
    returns exactly [reqSize] bytes if [compRatio = 0] or
    [reqSize <= compWindow], and exactly [compWindow] bytes in the
    window-capped case [reqSize > compWindow >= compRatio > 0]. *)
Theorem genData_length fuel reqSize ratio window w :
  1 <= reqSize -> 0 <= ratio -> 1 <= window ->
  next_read_ok w -> (Z.to_nat reqSize <= fuel)%nat ->
  (ratio = 0 \/ reqSize <= window ->
   exists b w', genData fuel reqSize ratio window w = Returns (b, w') /\
                len b = reqSize) /\
  (0 < ratio <= window -> window < reqSize ->
   exists b w', genData fuel reqSize ratio window w = Returns (b, w') /\
                len b = window).
Proof.
  intros Hreq Hratio Hwin Hok Hfuel. split.
  - intros Hcase.
    destruct (genData_returns_len fuel reqSize ratio window w)
      as (b & w' & Hrun & Hb & _); try assumption; [lia|].
    exists b, w'. split; [exact Hrun|]. rewrite Hb.
    destruct (Z.ltb_spec 0 ratio); [|reflexivity].
    destruct (Z.ltb_spec window reqSize); [lia|reflexivity].
  - intros Hcase Hcap.
    destruct (genData_returns_len fuel reqSize ratio window w)
      as (b & w' & Hrun & Hb & _); try assumption; [lia|].
    exists b, w'. split; [exact Hrun|]. rewrite Hb.
    destruct (Z.ltb_spec 0 ratio); [|lia].
    destruct (Z.ltb_spec window reqSize); [reflexivity|lia].
Qed.

Lemma genData_length_witness :
  (1 <= 12 /\ 0 <= 4 /\ 1 <= 1000000 /\ next_read_ok letters_world /\
   (Z.to_nat 12 <= 12)%nat /\ 12 <= 1000000 /\
   exists b w', genData 12 12 4 1000000 letters_world = Returns (b, w') /\
                len b = 12) /\
  (1 <= 10 /\ 0 <= 2 /\ 1 <= 4 /\ next_read_ok letters_world /\
   (Z.to_nat 10 <= 10)%nat /\ 0 < 2 <= 4 /\ 4 < 10 /\
   exists b w', genData 10 10 2 4 letters_world = Returns (b, w') /\
                len b = 4).
Proof.
  split.
  - repeat (split; [first [lia | reflexivity | (simpl; lia)] |]).
    apply (genData_length 12 12 4 1000000 letters_world);
      [lia | lia | lia | reflexivity | simpl; lia | lia].
  - repeat (split; [first [lia | reflexivity | (simpl; lia)] |]).
    apply (genData_length 10 10 2 4 letters_world);
      [lia | lia | lia | reflexivity | simpl; lia | lia | lia].
Defined.

(** C2, as stated, fails: a request of 10 bytes with ratio 2 and window 4
    returns the 4 bytes [ABAB]. *)
Lemma genData_length_counterexample :
  exists w',
    genData 10 10 2 4 letters_world
    = Returns (list_byte_of_string "ABAB", w') /\
    len (list_byte_of_string "ABAB") <> 10.
Proof.
  eexists. split; [vm_compute; reflexivity|]. vm_compute. discriminate.
Qed.

Lemma concat_repeat_singleton (x : byte) (k : nat) :
  List.concat (repeat [x] k) = repeat x k.
Proof. induction k as [|k IH]; [reflexivity|]. cbn. now rewrite IH. Qed.

(** C6, as amended: for [1 <= reqSize < compRatio] with
    [reqSize <= compWindow], when the secure random read succeeds,
    [genData] falls back to a unique block of length 1 with remainder 0
    and returns exactly [reqSize] bytes, all equal to the one byte read. *)
Theorem genData_small_request fuel reqSize ratio window w :
  1 <= reqSize < ratio -> reqSize <= window ->
  next_read_ok w -> (Z.to_nat reqSize <= fuel)%nat ->
  genData_plan reqSize ratio window = (1, 0, reqSize) /\
  genData fuel reqSize ratio window w
  = Returns (repeat (entropy w (cursor w)) (Z.to_nat reqSize), after_read 1 w).
Proof.
  intros Hreq Hwin Hok Hfuel.
  assert (Hplan : genData_plan reqSize ratio window = (1, 0, reqSize))
    by (apply plan_small; lia).
  split; [exact Hplan|].
  destruct (genData_run fuel reqSize ratio window w 1 0 (Z.to_nat reqSize))
    as (b & Hrun & Hb & Hpre); try lia; try assumption.
  { rewrite Hplan, Z2Nat.id by lia. now rewrite Z.mul_1_r. }
  rewrite Hrun. f_equal. f_equal.
  rewrite Z.mul_1_r, Nat2Z.id in Hpre.
  rewrite firstn_all2 in Hpre by (unfold len in Hb; lia).
  rewrite Hpre. change (fresh (Z.to_nat 1) w) with [entropy w (cursor w)].
  apply concat_repeat_singleton.
Qed.

Lemma genData_small_request_witness :
  1 <= 2 < 3 /\ 2 <= 5 /\ next_read_ok letters_world /\ (Z.to_nat 2 <= 2)%nat /\
  genData_plan 2 3 5 = (1, 0, 2) /\
  genData 2 2 3 5 letters_world
  = Returns (repeat (entropy letters_world (cursor letters_world)) (Z.to_nat 2),
             after_read 1 letters_world).
Proof.
  repeat (split; [first [lia | reflexivity | (simpl; lia)] |]).
  apply (genData_small_request 2 2 3 5 letters_world);
    [lia | lia | reflexivity | simpl; lia].
Defined.

(** C6, as stated, fails when the request exceeds the window: 2 bytes with
    ratio 3 and window 1 take the window-capped branch, which has no
    fallback, and the call panics instead of returning 2 bytes. *)
Lemma genData_small_request_counterexample :
  1 <= 2 < 3 /\
  genData_plan 2 3 1 = (0, 1, 0) /\
  genData 2 2 3 1 letters_world = Panics IndexOutOfRange.
Proof. split; [lia|]. split; reflexivity. Qed.

Lemma genData_negative_unique_panics fuel reqSize ratio window w :
  0 < ratio -> window <= - ratio -> window < reqSize ->
  genData fuel reqSize ratio window w = Panics MakeSliceLen.
Proof.
  intros Hratio Hwin Hreq. unfold genData. rewrite plan_capped by lia.
  assert (Hneg : Z.quot window ratio < 0).
  { pose proof (Z.quot_str_pos (- window) ratio ltac:(lia)) as Hq.
    rewrite Z.quot_opp_l in Hq by lia. lia. }
  unfold make_bytes.
  destruct (Z.ltb_spec (Z.quot window ratio) 0); [reflexivity|lia].
Qed.

(** C10, as amended: for [0 < compWindow < compRatio] and
    [reqSize > compWindow] the window-capped branch yields unique length 0,
    the repeat loop returns the empty builder, and the remainder loop
    indexes it: [genData] panics with an index out of range.  Over all
    arguments, [genData] returns only when [compRatio <= 0],
    [reqSize <= compWindow], [compWindow >= compRatio] or
    [- compRatio < compWindow <= 0]; in the last case the capped branch
    has nothing to read and nothing to fill. *)
Theorem genData_window_below_ratio_panics fuel reqSize ratio window w :
  (0 < window < ratio -> window < reqSize ->
   genData_plan reqSize ratio window = (0, window, 0) /\
   repeat_loop fuel [] [] 0 = Returns [] /\
   genData fuel reqSize ratio window w = Panics IndexOutOfRange) /\
  (returns (genData fuel reqSize ratio window w) ->
   ratio <= 0 \/ reqSize <= window \/ window >= ratio \/
   - ratio < window <= 0).
Proof.
  assert (Hpanic : 0 < window < ratio -> window < reqSize ->
     genData_plan reqSize ratio window = (0, window, 0) /\
     repeat_loop fuel [] [] 0 = Returns [] /\
     genData fuel reqSize ratio window w = Panics IndexOutOfRange).
  { intros Hwin Hreq.
    assert (Hplan : genData_plan reqSize ratio window = (0, window, 0)).
    { rewrite plan_capped by lia.
      rewrite Z.quot_small, Z.rem_small by lia. reflexivity. }
    assert (Hloop : repeat_loop fuel [] [] 0 = Returns [])
      by (rewrite repeat_loop_eq; reflexivity).
    split; [exact Hplan|]. split; [exact Hloop|].
    unfold genData. rewrite Hplan. cbn [make_bytes Z.ltb Z.compare bind Z.to_nat Read].
    rewrite Hloop. cbn [bind].
    destruct (Z.to_nat window) as [|n] eqn:E; [lia|].
    now rewrite fill_loop_empty_panics. }
  split; [exact Hpanic|].
  intros [r Hret].
  destruct (Z_le_gt_dec ratio 0) as [|Hr]; [now left|].
  destruct (Z_le_gt_dec reqSize window) as [|Hreq]; [right; now left|].
  destruct (Z_le_gt_dec ratio window) as [|Hrw]; [right; right; left; lia|].
  destruct (Z_le_gt_dec window 0) as [Hw0|Hw0].
  - destruct (Z_le_gt_dec window (- ratio)) as [Hlow|Hlow]; [|do 3 right; lia].
    rewrite genData_negative_unique_panics in Hret by lia. discriminate.
  - destruct Hpanic as (_ & _ & Hp); [lia|lia|]. congruence.
Qed.

Lemma genData_window_below_ratio_panics_witness :
  (0 < 1 < 3 /\ 1 < 2 /\
   genData_plan 2 3 1 = (0, 1, 0) /\
   repeat_loop 5 [] [] 0 = Returns [] /\
   genData 5 2 3 1 letters_world = Panics IndexOutOfRange) /\
  (returns (genData 10 10 2 4 letters_world) /\
   (2 <= 0 \/ 10 <= 4 \/ 4 >= 2 \/ - 2 < 4 <= 0)).
Proof.
  split.
  - split; [lia|]. split; [lia|].
    apply (proj1 (genData_window_below_ratio_panics 5 2 3 1 letters_world)); lia.
  - assert (Hret : returns (genData 10 10 2 4 letters_world))
      by (eexists; vm_compute; reflexivity).
    split; [exact Hret|].
    apply (proj2 (genData_window_below_ratio_panics 10 10 2 4 letters_world));
      exact Hret.
Defined.

(** C10, as stated, fails in its last part: with ratio 1 and window 0 a
    request of 1 byte takes the window-capped branch with unique length 0
    and remainder 0, and returns the empty slice without reading, although
    [compRatio <> 0], [reqSize > compWindow] and [compWindow < compRatio];
    so does a request of 3 bytes with ratio 2 and window -1, whose
    negative remainder leaves the fill loop without iterations. *)
Lemma genData_window_below_ratio_counterexample :
  genData_plan 1 1 0 = (0, 0, 0) /\
  genData 1 1 1 0 letters_world = Returns ([], letters_world) /\
  ~ (1 = 0 \/ 1 <= 0 \/ 0 >= 1) /\
  genData_plan 3 2 (-1) = (0, -1, 0) /\
  genData 1 3 2 (-1) letters_world = Returns ([], letters_world) /\
  ~ (2 = 0 \/ 3 <= -1 \/ -1 >= 2).
Proof.
  split; [reflexivity|]. split; [reflexivity|]. split; [lia|].
  split; [reflexivity|]. split; [reflexivity|]. lia.
Qed.

End GenDataClaims.

Section PlainSrcLemmas.

Lemma length_set_index i b s : List.length (set_index i b s) = List.length s.
Proof.
  revert i. induction s as [|x s IH]; intros [|i]; cbn; auto.
Qed.

Lemma nth_error_set_index_same i b s :
  (i < List.length s)%nat -> nth_error (set_index i b s) i = Some b.
Proof.
  revert i. induction s as [|x s IH]; intros [|i] H; cbn in *; try lia; auto.
  apply IH. lia.
Qed.

Lemma nth_error_set_index_other i j b s :
  i <> j -> nth_error (set_index i b s) j = nth_error s j.
Proof.
  revert i j.
  induction s as [|x s IH]; intros [|i] [|j] H; cbn; auto; try contradiction.
Qed.

Lemma length_leftover n w : List.length (leftover n w) = n.
Proof.
  unfold leftover. rewrite length_firstn, length_app, repeat_length. lia.
Qed.

Lemma Read_length n w build err w1 :
  Read n w = (build, err, w1) -> List.length build = n.
Proof.
  unfold Read. destruct n as [|n].
  - intros [= <- _ _]. reflexivity.
  - destruct (faulty w (reads w)); intros [= <- _ _].
    + apply length_leftover.
    + change (List.length (map (entropy w) (seq (cursor w) (S n))) = S n).
      now rewrite length_map, length_seq.
Qed.

(** The repetition loop of [plainSrc.Object]: with [q = splitLength > 0]
    every byte at index [i] ends up equal to the original byte at index
    [i mod q].  The statement is the loop invariant at loop variable [j]. *)
Lemma split_loop_invariant (dst0 : list byte) (q : nat) (todo : nat) :
  forall (j : nat) (cur : list byte),
    (0 < q <= j)%nat ->
    (j + todo = List.length dst0)%nat ->
    List.length cur = List.length dst0 ->
    (forall i, (i < j)%nat -> nth_error cur i = nth_error dst0 (i mod q)) ->
    (forall i, (j <= i)%nat -> nth_error cur i = nth_error dst0 i) ->
    exists r,
      split_loop todo (Z.of_nat j) (Z.of_nat q) cur = Returns r /\
      List.length r = List.length dst0 /\
      (forall i, (i < List.length dst0)%nat ->
                 nth_error r i = nth_error dst0 (i mod q)).
Proof.
  induction todo as [|todo IH]; intros j cur Hq Hj Hlen Hlow Hhigh.
  - exists cur. split; [reflexivity|]. split; [exact Hlen|].
    intros i Hi. apply Hlow. lia.
  - cbn [split_loop].
    destruct (Z.eqb_spec (Z.of_nat q) 0) as [E|_]; [lia|].
    rewrite Z.rem_mod_nonneg, <- Nat2Z.inj_mod, Nat2Z.id by lia.
    assert (Hm : (j mod q < q)%nat) by (apply Nat.mod_upper_bound; lia).
    destruct (nth_error cur (j mod q)) as [b|] eqn:Hb.
    + replace (Z.of_nat j + 1) with (Z.of_nat (S j)) by lia.
      rewrite (Nat2Z.id j).
      apply IH.
      * lia.
      * lia.
      * now rewrite length_set_index.
      * intros i Hi. destruct (Nat.eq_dec i j) as [->|Hne].
        -- rewrite nth_error_set_index_same by lia.
           rewrite <- Hb. rewrite Hlow by lia.
           now rewrite Nat.Div0.mod_mod.
        -- rewrite nth_error_set_index_other by lia. apply Hlow. lia.
      * intros i Hi. rewrite nth_error_set_index_other by lia.
        apply Hhigh. lia.
    + apply nth_error_None in Hb. lia.
Qed.

Lemma split_loop_returns (dst : list byte) :
  4 <= len dst ->
  exists r,
    split_loop (Z.to_nat (len dst - Z.quot (len dst) 4))
               (Z.quot (len dst) 4) (Z.quot (len dst) 4) dst = Returns r /\
    len r = len dst /\
    (forall i, (i < List.length dst)%nat ->
               nth_error r i = nth_error dst (i mod Z.to_nat (Z.quot (len dst) 4))).
Proof.
  intros H4.
  destruct (quot_rem_pos (len dst) 4) as (Hq & Hr & Heq); [lia|lia|].
  set (q := Z.to_nat (Z.quot (len dst) 4)).
  assert (Hq1 : (1 <= q)%nat) by (unfold q; lia).
  assert (HqZ : Z.quot (len dst) 4 = Z.of_nat q) by (unfold q; lia).
  assert (Hql : (q <= List.length dst)%nat) by (unfold len in *; lia).
  rewrite HqZ.
  destruct (split_loop_invariant dst q (Z.to_nat (len dst - Z.of_nat q)) q dst)
    as (r & Hrun & Hlen & Hnth).
  - lia.
  - unfold len. lia.
  - reflexivity.
  - intros i Hi. now rewrite Nat.mod_small by lia.
  - reflexivity.
  - exists r. split; [exact Hrun|]. split; [unfold len; now rewrite Hlen|].
    exact Hnth.
Qed.

Lemma split_loop_small (dst : list byte) :
  1 <= len dst <= 3 ->
  split_loop (Z.to_nat (len dst - Z.quot (len dst) 4))
             (Z.quot (len dst) 4) (Z.quot (len dst) 4) dst
  = Panics DivideByZero.
Proof.
  intros H. rewrite Z.quot_small by lia. rewrite Z.sub_0_r.
  destruct (Z.to_nat (len dst)) as [|n] eqn:E; [lia|]. reflexivity.
Qed.

Lemma Reset_zero c : Reset c 0 = Returns [].
Proof. reflexivity. Qed.

End PlainSrcLemmas.

Section PlainSrcObject.

(** What a returning call of [plainSrc.Object] leaves behind. *)
Lemma plainSrc_Object_run c w n rng1 build err w1 :
  getSize (plainSrc.o c) (plainSrc.rng c) = (n, rng1) ->
  Read (Z.to_nat n) w = (build, err, w1) ->
  n = 0 \/ 4 <= n ->
  exists payload,
    plainSrc.Object c w
    = Returns
        (plainSrc.mk (plainSrc.o c) (snd (randASCIIBytes 16 rng1))
           (setName (string_of_list_byte (fst (randASCIIBytes 16 rng1)) ++ ".txt")%string
              (setReader [] (setSize n (plainSrc.obj c))))
           (mkCircularBuffer payload (want (plainSrc.buf c)))
           (plainSrc.builder c),
         if err then println "error:"%string w1 else w1) /\
    len payload = n /\
    (forall i, (i < Z.to_nat n)%nat ->
               nth_error payload i = nth_error build (i mod Z.to_nat (Z.quot n 4))).
Proof.
  intros Hsize Hread Hn.
  assert (Hlen : len build = n).
  { apply Read_length in Hread. unfold len. rewrite Hread. lia. }
  unfold plainSrc.Object. rewrite Hsize.
  rewrite make_bytes_ok by lia. cbn [bind].
  rewrite Hread. cbn [firstn app].
  destruct Hn as [Hzero | Hbig].
  - assert (build = []) as ->.
    { destruct build; [reflexivity|]. unfold len in Hlen. cbn in Hlen. lia. }
    change (Z.to_nat (len (@nil byte) - Z.quot (len (@nil byte)) 4)) with 0%nat.
    cbn [split_loop bind]. rewrite Reset_zero. cbn [bind].
    exists []. split; [reflexivity|]. split; [now rewrite <- Hlen|].
    intros i Hi. lia.
  - destruct (split_loop_returns build) as (r & Hrun & Hr & Hnth); [lia|].
    rewrite Hrun. cbn [bind]. rewrite Reset_zero. cbn [bind].
    exists r. split; [reflexivity|]. split; [lia|].
    intros i Hi. rewrite <- Hlen. apply Hnth. unfold len in Hlen. lia.
Qed.

Lemma plainSrc_Object_small c w n rng1 :
  getSize (plainSrc.o c) (plainSrc.rng c) = (n, rng1) ->
  1 <= n <= 3 ->
  plainSrc.Object c w = Panics DivideByZero.
Proof.
  intros Hsize Hn.
  destruct (Read (Z.to_nat n) w) as [[build err] w1] eqn:Hread.
  assert (Hlen : len build = n).
  { apply Read_length in Hread. unfold len. rewrite Hread. lia. }
  unfold plainSrc.Object. rewrite Hsize.
  rewrite make_bytes_ok by lia. cbn [bind].
  rewrite Hread. cbn [firstn app].
  rewrite split_loop_small by lia. reflexivity.
Qed.

Lemma plainSrc_Object_negative c w n rng1 :
  getSize (plainSrc.o c) (plainSrc.rng c) = (n, rng1) ->
  n < 0 ->
  plainSrc.Object c w = Panics MakeSliceLen.
Proof.
  intros Hsize Hn. unfold plainSrc.Object. rewrite Hsize.
  unfold make_bytes. destruct (Z.ltb_spec n 0); [reflexivity|lia].
Qed.

Lemma plainSrc_Object_returns_size c w r n rng1 :
  getSize (plainSrc.o c) (plainSrc.rng c) = (n, rng1) ->
  plainSrc.Object c w = Returns r ->
  n = 0 \/ 4 <= n.
Proof.
  intros Hsize Hr.
  destruct (Z_lt_le_dec n 0) as [Hneg|Hnn].
  { rewrite (plainSrc_Object_negative c w n rng1) in Hr by assumption.
    discriminate. }
  destruct (Z.eq_dec n 0) as [|Hnz]; [now left|].
  destruct (Z_lt_le_dec n 4) as [Hlt|Hge]; [|now right].
  rewrite (plainSrc_Object_small c w n rng1) in Hr by (auto; lia).
  discriminate.
Qed.

(** C9: for a drawn size [n] with [1 <= n <= 3], [splitLength = n / 4 = 0]
    and the first iteration of the repetition loop evaluates [i % 0]:
    [plainSrc.Object] panics with a division by zero.  The call returns
    exactly when the drawn size is 0 or at least 4. *)
Theorem plainSrc_Object_total_iff_size c w :
  (1 <= fst (getSize (plainSrc.o c) (plainSrc.rng c)) <= 3 ->
   Z.quot (fst (getSize (plainSrc.o c) (plainSrc.rng c))) 4 = 0 /\
   plainSrc.Object c w = Panics DivideByZero) /\
  (returns (plainSrc.Object c w) <->
   fst (getSize (plainSrc.o c) (plainSrc.rng c)) = 0 \/
   4 <= fst (getSize (plainSrc.o c) (plainSrc.rng c))).
Proof.
  destruct (getSize (plainSrc.o c) (plainSrc.rng c)) as [n rng1] eqn:Hsize.
  cbn [fst]. split.
  - intros Hn. split; [apply Z.quot_small; lia|].
    eapply plainSrc_Object_small; eauto.
  - split.
    + intros [r Hr]. exact (plainSrc_Object_returns_size c w r n rng1 Hsize Hr).
    + intros Hn.
      destruct (Read (Z.to_nat n) w) as [[build err] w1] eqn:Hread.
      destruct (plainSrc_Object_run c w n rng1 build err w1 Hsize Hread Hn)
        as (payload & Hrun & _).
      eexists. exact Hrun.
Qed.

Lemma plainSrc_Object_total_iff_size_witness :
  1 <= fst (getSize (plainSrc.o plain2) (plainSrc.rng plain2)) <= 3 /\
  Z.quot (fst (getSize (plainSrc.o plain2) (plainSrc.rng plain2))) 4 = 0 /\
  plainSrc.Object plain2 letters_world = Panics DivideByZero /\
  returns (plainSrc.Object plain8 letters_world) /\
  (fst (getSize (plainSrc.o plain8) (plainSrc.rng plain8)) = 0 \/
   4 <= fst (getSize (plainSrc.o plain8) (plainSrc.rng plain8))).
Proof.
  assert (H2 : 1 <= fst (getSize (plainSrc.o plain2) (plainSrc.rng plain2)) <= 3)
    by (vm_compute; split; discriminate).
  assert (H8 : returns (plainSrc.Object plain8 letters_world))
    by (eexists; vm_compute; reflexivity).
  split; [exact H2|].
  split; [apply (proj1 (plainSrc_Object_total_iff_size plain2 letters_world) H2)|].
  split; [apply (proj1 (plainSrc_Object_total_iff_size plain2 letters_world) H2)|].
  split; [exact H8|].
  apply (proj2 (plainSrc_Object_total_iff_size plain8 letters_world)). exact H8.
Defined.

End PlainSrcObject.

Section TextSrcLemmas.

Lemma repeat_loop_len fuel :
  forall u b target r,
    repeat_loop fuel u b target = Returns r -> len r = target.
Proof.
  induction fuel as [|fuel IH]; intros u b target r; rewrite repeat_loop_eq;
    destruct (Z.eqb_spec (len b) target) as [E|_]; try discriminate.
  - now intros [= <-].
  - now intros [= <-].
  - apply IH.
Qed.

Lemma fill_loop_len todo :
  forall i b r, fill_loop todo i b = Returns r -> len r = len b + Z.of_nat todo.
Proof.
  induction todo as [|todo IH]; intros i b r; cbn [fill_loop].
  - intros [= <-]. lia.
  - destruct (nth_error b i) as [x|]; [|discriminate].
    intros H. apply IH in H. rewrite H, len_app. unfold len. cbn [List.length]. lia.
Qed.

(** Whatever [genData] returns is empty (failed read) or has the length
    that the case split planned. *)
Lemma genData_returned_len fuel reqSize ratio window w b w' :
  genData fuel reqSize ratio window w = Returns (b, w') ->
  b = [] \/
  exists u r rep,
    genData_plan reqSize ratio window = (u, r, rep) /\
    0 <= u /\ len b = rep + Z.of_nat (Z.to_nat r).
Proof.
  unfold genData.
  destruct (genData_plan reqSize ratio window) as [[u r] rep].
  unfold make_bytes. destruct (Z.ltb_spec u 0) as [Hneg|Hu]; [discriminate|].
  cbn [bind].
  destruct (Read (Z.to_nat u) w) as [[uniq err] w1].
  destruct err.
  - intros [= <- _]. now left.
  - destruct (repeat_loop fuel uniq [] rep) as [whole| |] eqn:Hrep; try discriminate.
    cbn [bind].
    destruct (fill_loop (Z.to_nat r) 0 whole) as [full| |] eqn:Hfill; try discriminate.
    cbn [bind]. intros [= <- _]. right. exists u, r, rep.
    split; [reflexivity|]. split; [assumption|].
    apply fill_loop_len in Hfill. apply repeat_loop_len in Hrep. lia.
Qed.

(** [genData] never returns more than it was asked for. *)
Lemma genData_at_most fuel reqSize ratio window w b w' :
  0 <= reqSize ->
  genData fuel reqSize ratio window w = Returns (b, w') ->
  len b <= reqSize.
Proof.
  intros Hreq Hrun.
  destruct (genData_returned_len _ _ _ _ _ _ _ Hrun)
    as [-> | (u & r & rep & Hplan & Hu & Hlen)]; [exact Hreq|].
  rewrite Hlen. clear Hlen Hrun. revert Hplan. unfold genData_plan.
  destruct (Z.ltb_spec 0 ratio) as [Hpos|Hnp]; cbn [andb].
  - destruct (Z.leb_spec reqSize window) as [Hin|Hcap].
    + destruct (quot_rem_pos reqSize ratio) as (Hq & Hr & Heq); [lia|lia|].
      destruct (Z.eqb_spec (Z.quot reqSize ratio) 0); intros [= <- <- <-]; lia.
    + intros [= <- <- <-].
      destruct (Z_le_gt_dec 0 window) as [Hw|Hw].
      * destruct (quot_rem_pos window ratio) as (Hq & Hr & Heq); [lia|lia|]. lia.
      * pose proof (Z.rem_nonpos window ratio). 
        pose proof (Z.mul_quot_ge window ratio). nia.
  - intros [= <- <- <-]. lia.
Qed.

Lemma build_loop_eq fuel inner size ratio window b w :
  build_loop fuel inner size ratio window b w =
  if len b <? size then
    match fuel with
    | O => OutOfFuel
    | S fuel' =>
        r <- genData inner (size - len b) ratio window w ;;
        build_loop fuel' inner size ratio window (b ++ fst r) (snd r)
    end
  else Returns (b, w).
Proof. destruct fuel; reflexivity. Qed.

(** On exit of the accumulation loop the builder holds exactly [size]
    bytes. *)
Lemma build_loop_len fuel inner size ratio window :
  forall b w r w',
    len b <= size ->
    build_loop fuel inner size ratio window b w = Returns (r, w') ->
    len r = size.
Proof.
  induction fuel as [|fuel IH]; intros b w r w' Hb; rewrite build_loop_eq;
    destruct (Z.ltb_spec (len b) size) as [Hlt|Hge]; try discriminate.
  - intros [= <- _]. lia.
  - destruct (genData inner (size - len b) ratio window w) as [[g w1]| |] eqn:Hg;
      try discriminate.
    cbn [bind fst snd]. apply IH.
    apply genData_at_most in Hg; [|lia]. rewrite len_app. lia.
  - intros [= <- _]. lia.
Qed.

Lemma len_drain buffer n :
  (n = 0 \/ buffer <> [])%nat -> len (drain buffer n) = Z.of_nat n.
Proof.
  intros H. unfold drain, len. rewrite length_firstn.
  destruct H as [-> | Hne]; [reflexivity|].
  assert (Hc : Z.of_nat n <= len (List.concat (repeat buffer n))).
  { rewrite len_concat_repeat.
    assert (1 <= len buffer).
    { destruct buffer; [contradiction|]. unfold len. cbn [List.length]. lia. }
    nia. }
  unfold len in Hc. lia.
Qed.

End TextSrcLemmas.


Section TextSrcObject.

(** What a returning call of [textSrc.Object] leaves behind. *)
Lemma textSrc_Object_run fuel s w s' w' :
  textSrc.Object fuel s w = Returns (s', w') ->
  0 <= Size (textSrc.obj s') /\
  Size (textSrc.obj s') = fst (getSize (textSrc.o s) (textSrc.rng s)) /\
  len (data (textSrc.buf s')) = Size (textSrc.obj s') /\
  Reader (textSrc.obj s')
  = Some (drain (data (textSrc.buf s')) (Z.to_nat (Size (textSrc.obj s')))) /\
  textSrc.counter s' = (textSrc.counter s + 1) mod 2 ^ 64 /\
  Name (textSrc.obj s')
  = (sprint_d (textSrc.counter s') ++ "." ++
     string_of_list_byte
       (fst (randASCIIBytes 16 (snd (getSize (textSrc.o s) (textSrc.rng s)))))
     ++ ".txt")%string.
Proof.
  unfold textSrc.Object.
  destruct (getSize (textSrc.o s) (textSrc.rng s)) as [n rng1].
  destruct (build_loop fuel fuel n (compRatio (textSrc.o s))
              (compWindow (textSrc.o s)) [] w) as [[b w1]| |] eqn:Hloop;
    try discriminate.
  cbn [bind fst snd].
  unfold Reset. cbn [data].
  destruct (Z.ltb_spec n 0) as [Hneg|Hnn]; [discriminate|].
  destruct ((0 <? n) && (len b =? 0)); [discriminate|].
  cbn [bind]. intros [= <- _]. cbn.
  apply build_loop_len in Hloop; [|change (len (@nil byte)) with 0; lia].
  repeat split; auto.
Qed.

(** With a working secure source, a positive window and a ratio that is 0
    or at most the window, every call of [genData] contributes at least
    one byte and the accumulation loop exits within [size] iterations. *)
Lemma build_loop_terminates fuel inner size ratio window :
  forall b w,
    healthy w -> 0 <= ratio -> 1 <= window -> ratio = 0 \/ ratio <= window ->
    (Z.to_nat (size - len b) <= fuel)%nat -> (Z.to_nat size <= inner)%nat ->
    returns (build_loop fuel inner size ratio window b w).
Proof.
  induction fuel as [|fuel IH]; intros b w Hw Hr Hwin Hcase Hfuel Hinner;
    rewrite build_loop_eq;
    destruct (Z.ltb_spec (len b) size) as [Hlt|Hge];
    try (eexists; reflexivity); [lia|].
  assert (Hb : 0 <= len b) by (unfold len; lia).
  destruct (genData_returns_len inner (size - len b) ratio window w)
    as (g & w1 & Hg & Hlen & Hf); try lia; [apply Hw|].
  rewrite Hg. cbn [bind fst snd]. apply IH; try assumption.
  - intros k. rewrite Hf. apply Hw.
  - rewrite len_app.
    destruct ((0 <? ratio) && (window <? size - len b)); lia.
Qed.

Lemma textSrc_Object_terminates fuel s w :
  healthy w ->
  0 <= compRatio (textSrc.o s) -> 1 <= compWindow (textSrc.o s) ->
  compRatio (textSrc.o s) = 0 \/ compRatio (textSrc.o s) <= compWindow (textSrc.o s) ->
  0 <= fst (getSize (textSrc.o s) (textSrc.rng s)) ->
  (Z.to_nat (fst (getSize (textSrc.o s) (textSrc.rng s))) <= fuel)%nat ->
  returns (textSrc.Object fuel s w).
Proof.
  intros Hw Hr Hwin Hcase Hsize Hfuel. unfold textSrc.Object.
  destruct (getSize (textSrc.o s) (textSrc.rng s)) as [n rng1].
  cbn [fst] in Hsize, Hfuel.
  destruct (build_loop_terminates fuel fuel n (compRatio (textSrc.o s))
              (compWindow (textSrc.o s)) [] w) as [[b w1] Hloop]; try assumption.
  { change (len (@nil byte)) with 0. lia. }
  rewrite Hloop. cbn [bind fst snd].
  assert (Hlen : len b = n).
  { eapply build_loop_len; [|exact Hloop]. change (len (@nil byte)) with 0. lia. }
  unfold Reset. cbn [data].
  destruct (Z.ltb_spec n 0); [lia|].
  destruct (Z.ltb_spec 0 n); destruct (Z.eqb_spec (len b) 0);
    cbn [andb bind]; try lia; eexists; reflexivity.
Qed.

End TextSrcObject.

Section SizeFidelity.

(** The stream that [textSrc.Object] hands back yields exactly
    [Object.Size] bytes. *)
Lemma textSrc_size_fidelity fuel s w s' w' :
  textSrc.Object fuel s w = Returns (s', w') ->
  exists stream,
    Reader (textSrc.obj s') = Some stream /\ len stream = Size (textSrc.obj s').
Proof.
  intros Hrun.
  destruct (textSrc_Object_run fuel s w s' w' Hrun)
    as (Hnn & _ & Hlen & Hreader & _).
  eexists. split; [exact Hreader|].
  rewrite len_drain; [lia|].
  destruct (data (textSrc.buf s')) as [|x l]; [|right; discriminate].
  left. change (len (@nil byte)) with 0 in Hlen. lia.
Qed.

(** The stream that [plainSrc.Object] hands back is the cursor of
    [Reset(0)]: it yields no byte, whatever [Object.Size] is. *)
Lemma plainSrc_stream_empty c w c' w' :
  plainSrc.Object c w = Returns (c', w') ->
  Reader (plainSrc.obj c') = Some [] /\
  Size (plainSrc.obj c') = fst (getSize (plainSrc.o c) (plainSrc.rng c)).
Proof.
  intros Hrun.
  destruct (getSize (plainSrc.o c) (plainSrc.rng c)) as [n rng1] eqn:Hsize.
  destruct (Read (Z.to_nat n) w) as [[build err] w1] eqn:Hread.
  assert (Hn : n = 0 \/ 4 <= n)
    by (exact (plainSrc_Object_returns_size c w _ n rng1 Hsize Hrun)).
  destruct (plainSrc_Object_run c w n rng1 build err w1 Hsize Hread Hn)
    as (payload & Hrun' & _).
  rewrite Hrun' in Hrun. injection Hrun as <- _. split; reflexivity.
Qed.

(** C1 at a failing input: a Random Source with randomized size up to 8
    draws size 4, and the stream of the returned object yields 0 bytes. *)
Theorem plainSrc_stream_shorter_than_Size :
  exists c' w' stream,
    plainSrc.Object (plain_of counting (options 8 true 0 0)) letters_world
    = Returns (c', w') /\
    Size (plainSrc.obj c') = 4 /\
    Reader (plainSrc.obj c') = Some stream /\
    len stream = 0 /\
    len stream <> Size (plainSrc.obj c').
Proof.
  do 3 eexists. split; [vm_compute; reflexivity|].
  cbn. repeat split. discriminate.
Qed.

End SizeFidelity.

Section RandomPayload.

(** C3, as amended: when the secure random read succeeds, the payload of
    an object of the Random Source has [Object.Size] bytes of which the
    first [Size / 4] are the first bytes read from the secure source and
    every later byte [i] repeats byte [i mod (Size / 4)]. *)
Theorem plainSrc_payload_repeats_first_quarter c w c' w' :
  next_read_ok w ->
  plainSrc.Object c w = Returns (c', w') ->
  len (data (plainSrc.buf c')) = Size (plainSrc.obj c') /\
  forall i,
    (i < Z.to_nat (Size (plainSrc.obj c')))%nat ->
    nth_error (data (plainSrc.buf c')) i
    = nth_error (fresh (Z.to_nat (Size (plainSrc.obj c'))) w)
                (i mod Z.to_nat (Z.quot (Size (plainSrc.obj c')) 4)).
Proof.
  intros Hok Hrun.
  destruct (getSize (plainSrc.o c) (plainSrc.rng c)) as [n rng1] eqn:Hsize.
  assert (Hn : n = 0 \/ 4 <= n)
    by (exact (plainSrc_Object_returns_size c w _ n rng1 Hsize Hrun)).
  destruct (plainSrc_Object_run c w n rng1 _ _ _ Hsize (Read_ok _ w Hok) Hn)
    as (payload & Hrun' & Hlen & Hnth).
  rewrite Hrun' in Hrun. injection Hrun as <- _. cbn. split; assumption.
Qed.

Lemma plainSrc_payload_repeats_first_quarter_witness :
  next_read_ok letters_world /\
  plainSrc.Object plain8 letters_world
  = Returns (fst plain8_after, snd plain8_after) /\
  len (data (plainSrc.buf (fst plain8_after)))
  = Size (plainSrc.obj (fst plain8_after)) /\
  forall i,
    (i < Z.to_nat (Size (plainSrc.obj (fst plain8_after))))%nat ->
    nth_error (data (plainSrc.buf (fst plain8_after))) i
    = nth_error
        (fresh (Z.to_nat (Size (plainSrc.obj (fst plain8_after)))) letters_world)
        (i mod Z.to_nat (Z.quot (Size (plainSrc.obj (fst plain8_after))) 4)).
Proof.
  split; [reflexivity|]. split; [vm_compute; reflexivity|].
  apply (plainSrc_payload_repeats_first_quarter
           plain8 letters_world (fst plain8_after) (snd plain8_after));
    [reflexivity | vm_compute; reflexivity].
Defined.

(** C3, as stated, fails: of the 8 bytes [ABCDEFGH] read from the secure
    source only [AB] reach the payload, which is [ABABABAB]. *)
Lemma plainSrc_payload_counterexample :
  exists c' w',
    plainSrc.Object plain8 letters_world = Returns (c', w') /\
    Size (plainSrc.obj c') = 8 /\
    fresh 8 letters_world = list_byte_of_string "ABCDEFGH" /\
    data (plainSrc.buf c') = list_byte_of_string "ABABABAB" /\
    data (plainSrc.buf c') <> fresh 8 letters_world.
Proof.
  do 2 eexists. split; [vm_compute; reflexivity|].
  repeat split. vm_compute. discriminate.
Qed.

End RandomPayload.

Section SeedBuffer.

(** C4, as amended: every [Object()] call overwrites the buffer of its
    source: the outcome of the call is the same whatever bytes the buffer
    held before, and after a returning call the buffer holds the
    [Object.Size] bytes of that call's payload. *)
Theorem Object_overwrites_buffer fuel s w :
  (forall old,
     Source_Object fuel (Source_with_data old s) w = Source_Object fuel s w) /\
  (forall s' w',
     Source_Object fuel s w = Returns (s', w') ->
     len (data (Source_buf s')) = Size (Source_obj s')).
Proof.
  split.
  - intros old. destruct s as [c|t]; reflexivity.
  - intros s' w'. destruct s as [c|t]; cbn [Source_Object].
    + destruct (plainSrc.Object c w) as [[c' w1]| |] eqn:Hrun; try discriminate.
      cbn [bind fst snd]. intros [= <- _]. cbn [Source_buf Source_obj].
      destruct (getSize (plainSrc.o c) (plainSrc.rng c)) as [n rng1] eqn:Hsize.
      destruct (Read (Z.to_nat n) w) as [[build err] w2] eqn:Hread.
      assert (Hn : n = 0 \/ 4 <= n)
        by (exact (plainSrc_Object_returns_size c w _ n rng1 Hsize Hrun)).
      destruct (plainSrc_Object_run c w n rng1 build err w2 Hsize Hread Hn)
        as (payload & Hrun' & Hlen & _).
      rewrite Hrun' in Hrun. injection Hrun as <- _. exact Hlen.
    + destruct (textSrc.Object fuel t w) as [[t' w1]| |] eqn:Hrun; try discriminate.
      cbn [bind fst snd]. intros [= <- _]. cbn [Source_buf Source_obj].
      apply textSrc_Object_run in Hrun. tauto.
Qed.

Lemma Object_overwrites_buffer_witness :
  Source_Object 8 (Source_with_data [x00] (TextSrc text8)) letters_world
  = Source_Object 8 (TextSrc text8) letters_world /\
  Source_Object 8 (TextSrc text8) letters_world
  = Returns (TextSrc (fst text8_after), snd text8_after) /\
  len (data (Source_buf (TextSrc (fst text8_after))))
  = Size (Source_obj (TextSrc (fst text8_after))).
Proof.
  split; [apply (Object_overwrites_buffer 8 (TextSrc text8) letters_world)|].
  split; [vm_compute; reflexivity|].
  apply (proj2 (Object_overwrites_buffer 8 (TextSrc text8) letters_world)
               (TextSrc (fst text8_after)) (snd text8_after)).
  vm_compute. reflexivity.
Defined.

(** C4, as stated, fails for both sources: the four seed bytes written at
    construction are gone after the first [Object()] call. *)
Lemma seed_buffer_counterexample :
  data (plainSrc.buf plain8) = [x00; x01; x02; x03] /\
  plainSrc.Object plain8 letters_world
  = Returns (fst plain8_after, snd plain8_after) /\
  data (plainSrc.buf (fst plain8_after)) = list_byte_of_string "ABABABAB" /\
  data (textSrc.buf text8) = [x00; x01; x02; x03] /\
  textSrc.Object 8 text8 letters_world
  = Returns (fst text8_after, snd text8_after) /\
  data (textSrc.buf (fst text8_after)) = list_byte_of_string "ABABCDCD" /\
  data (plainSrc.buf (fst plain8_after)) <> data (plainSrc.buf plain8) /\
  data (textSrc.buf (fst text8_after)) <> data (textSrc.buf text8).
Proof.
  repeat split; try (vm_compute; reflexivity); vm_compute; discriminate.
Qed.

End SeedBuffer.

Section Names.

Lemma length_randASCIIBytes n rng : List.length (fst (randASCIIBytes n rng)) = n.
Proof. unfold randASCIIBytes. cbn [fst]. now rewrite length_map, length_seq. Qed.

Lemma randASCIIBytes_alphanumeric n rng :
  Forall (fun b => In b asciiLetters) (fst (randASCIIBytes n rng)).
Proof.
  unfold randASCIIBytes. cbn [fst]. apply Forall_forall. intros b Hb.
  apply in_map_iff in Hb. destruct Hb as (k & <- & _).
  apply nth_In.
  change (List.length asciiLetters) with 62%nat.
  pose proof (Z.mod_pos_bound (MathRand.output rng k) 62). lia.
Qed.

Lemma name_suffix_inj (a b : list byte) :
  List.length a = List.length b ->
  (string_of_list_byte a ++ ".txt")%string = (string_of_list_byte b ++ ".txt")%string ->
  a = b.
Proof.
  revert b. induction a as [|x a IH]; intros [|y b] Hlen; try discriminate.
  - reflexivity.
  - cbn [string_of_list_byte map String.append]. intros H.
    injection H as Hxy Hrest.
    f_equal.
    + rewrite <- (byte_of_ascii_of_byte x), <- (byte_of_ascii_of_byte y).
      now rewrite Hxy.
    + apply IH; [cbn in Hlen; lia | exact Hrest].
Qed.

Lemma plainSrc_Object_name c w c' w' :
  plainSrc.Object c w = Returns (c', w') ->
  Name (plainSrc.obj c') = (string_of_list_byte (next_suffix c) ++ ".txt")%string.
Proof.
  intros Hrun. unfold next_suffix.
  destruct (getSize (plainSrc.o c) (plainSrc.rng c)) as [n rng1] eqn:Hsize.
  destruct (Read (Z.to_nat n) w) as [[build err] w2] eqn:Hread.
  assert (Hn : n = 0 \/ 4 <= n)
    by (exact (plainSrc_Object_returns_size c w _ n rng1 Hsize Hrun)).
  destruct (plainSrc_Object_run c w n rng1 build err w2 Hsize Hread Hn)
    as (payload & Hrun' & _).
  rewrite Hrun' in Hrun. injection Hrun as <- _. reflexivity.
Qed.

(** C5, as amended: a name assigned by the Random Source is the 16
    alphanumeric characters drawn from the seeded generator followed by
    [.txt]; it has no counter component, so the names of two calls are
    equal exactly when their suffixes are. *)
Theorem plainSrc_name_is_suffix_only c w c' w' :
  plainSrc.Object c w = Returns (c', w') ->
  Name (plainSrc.obj c') = (string_of_list_byte (next_suffix c) ++ ".txt")%string /\
  List.length (next_suffix c) = 16%nat /\
  Forall (fun b => In b asciiLetters) (next_suffix c) /\
  (forall d v d' v',
     plainSrc.Object d v = Returns (d', v') ->
     (Name (plainSrc.obj c') = Name (plainSrc.obj d') <->
      next_suffix c = next_suffix d)).
Proof.
  intros Hrun. pose proof (plainSrc_Object_name c w c' w' Hrun) as Hname.
  split; [exact Hname|].
  split; [apply length_randASCIIBytes|].
  split; [apply randASCIIBytes_alphanumeric|].
  intros d v d' v' Hd. rewrite Hname, (plainSrc_Object_name d v d' v' Hd).
  split.
  - apply name_suffix_inj. unfold next_suffix.
    now rewrite !length_randASCIIBytes.
  - now intros ->.
Qed.

Lemma plainSrc_name_is_suffix_only_witness :
  plainSrc.Object plain8 letters_world
  = Returns (fst plain8_after, snd plain8_after) /\
  Name (plainSrc.obj (fst plain8_after))
  = (string_of_list_byte (next_suffix plain8) ++ ".txt")%string /\
  List.length (next_suffix plain8) = 16%nat /\
  Forall (fun b => In b asciiLetters) (next_suffix plain8) /\
  (forall d v d' v',
     plainSrc.Object d v = Returns (d', v') ->
     (Name (plainSrc.obj (fst plain8_after)) = Name (plainSrc.obj d') <->
      next_suffix plain8 = next_suffix d)).
Proof.
  split; [vm_compute; reflexivity|].
  apply (plainSrc_name_is_suffix_only plain8 letters_world
           (fst plain8_after) (snd plain8_after)).
  vm_compute. reflexivity.
Defined.

(** C5, as stated, fails: two successive calls on one Random Source whose
    seeded generator repeats its draws assign the same name, which has no
    counter in it. *)
Lemma plainSrc_names_counterexample :
  plainSrc.Object cyclic8 letters_world
  = Returns (fst cyclic8_first, snd cyclic8_first) /\
  plainSrc.Object (fst cyclic8_first) (snd cyclic8_first)
  = Returns (fst cyclic8_second, snd cyclic8_second) /\
  Name (plainSrc.obj (fst cyclic8_first)) = "456789abcdef0123.txt"%string /\
  Name (plainSrc.obj (fst cyclic8_second)) = "456789abcdef0123.txt"%string.
Proof. repeat split; vm_compute; reflexivity. Qed.

End Names.

Section Construction.

Variable NewSource : Z -> MathRand.Source.

Lemma capped_size size total :
  (if size >? total then total else size) = Z.min size total.
Proof. destruct (Z.gtb_spec size total); lia. Qed.

Lemma make_cap_empty c :
  (0 <= c <= maxAlloc -> make_cap 0 c = Returns []) /\
  (maxAlloc < c -> make_cap 0 c = Panics MakeSliceCap).
Proof.
  unfold make_cap.
  assert (H0 : 0 <= maxAlloc) by (unfold maxAlloc; lia).
  destruct (Z.ltb_spec c 0); destruct (Z.ltb_spec maxAlloc c);
    destruct (Z.ltb_spec maxAlloc 0); try lia;
    change (0 <? 0) with false; cbn [orb]; split; intros; try lia; reflexivity.
Qed.

Lemma newRandom_cases global o :
  (Z.min (RandomOpts.size (random o)) (totalSize o) <= 0 /\
   exists e, newRandom NewSource global o = Returns (None, Some e)) \/
  (0 < Z.min (RandomOpts.size (random o)) (totalSize o) /\
   totalSize o <= maxAlloc /\
   exists c, newRandom NewSource global o = Returns (Some (PlainSrc c), None)) \/
  (0 < Z.min (RandomOpts.size (random o)) (totalSize o) /\
   maxAlloc < totalSize o /\
   newRandom NewSource global o = Panics MakeSliceCap).
Proof.
  unfold newRandom. rewrite capped_size.
  destruct (Z.leb_spec (Z.min (RandomOpts.size (random o)) (totalSize o)) 0)
    as [Hbad|Hpos].
  - left. split; [assumption|]. eexists. reflexivity.
  - right. cbn beta iota delta [MathRand.Read].
    destruct (Z_le_gt_dec (totalSize o) maxAlloc) as [Hfit|Hbig].
    + left. split; [assumption|]. split; [assumption|].
      rewrite (proj1 (make_cap_empty (totalSize o))) by lia.
      cbn [bind]. eexists. reflexivity.
    + right. split; [assumption|]. split; [lia|].
      rewrite (proj2 (make_cap_empty (totalSize o))) by lia. reflexivity.
Qed.



End Construction.



Section Termination.

Lemma genData_nothing_in_window inner reqSize ratio window w :
  0 < ratio -> - ratio < window <= 0 -> window < reqSize ->
  genData inner reqSize ratio window w = Returns ([], w).
Proof.
  intros Hr Hw Hreq. unfold genData. rewrite plan_capped by lia.
  assert (Hq : Z.quot window ratio = 0) by (apply Z.quot_small_iff; lia).
  rewrite Hq. cbn [make_bytes Z.ltb Z.compare bind Z.to_nat Read Z.mul].
  rewrite repeat_loop_eq. cbn [len List.length Z.of_nat Z.eqb bind].
  pose proof (Z.rem_nonpos window ratio ltac:(lia) ltac:(lia)) as Hrem.
  replace (Z.to_nat (Z.rem window ratio)) with 0%nat by lia. reflexivity.
Qed.

(** With a positive ratio and a window in [(-compRatio, 0]] every call of
    [genData] contributes nothing, and the accumulation loop makes no
    progress, whatever the fuel. *)
Lemma build_loop_stuck_window fuel inner size ratio window :
  forall w,
    0 < ratio -> - ratio < window <= 0 -> 0 < size ->
    build_loop fuel inner size ratio window [] w = OutOfFuel.
Proof.
  induction fuel as [|fuel IH]; intros w Hr Hw Hs; rewrite build_loop_eq;
    change (len (@nil byte)) with 0;
    (destruct (Z.ltb_spec 0 size); [|lia]); [reflexivity|].
  rewrite genData_nothing_in_window by lia. cbn [bind fst snd app].
  now apply IH.
Qed.

Lemma genData_broken inner reqSize ratio window w :
  ratio <= 0 -> 0 < reqSize -> faulty w (reads w) = true ->
  exists w', genData inner reqSize ratio window w = Returns ([], w') /\
             faulty w' = faulty w.
Proof.
  intros Hr Hreq Hbad. unfold genData. rewrite plan_uncompressed by lia.
  rewrite make_bytes_ok by lia. cbn [bind]. unfold Read.
  destruct (Z.to_nat reqSize) as [|n] eqn:E; [lia|].
  rewrite Hbad. eexists. split; reflexivity.
Qed.

(** When every secure random read fails, [genData] returns nil each time
    and the accumulation loop makes no progress either. *)
Lemma build_loop_stuck_broken fuel inner size ratio window :
  forall w,
    ratio <= 0 -> 0 < size -> broken w ->
    build_loop fuel inner size ratio window [] w = OutOfFuel.
Proof.
  induction fuel as [|fuel IH]; intros w Hr Hs Hbad; rewrite build_loop_eq;
    change (len (@nil byte)) with 0;
    (destruct (Z.ltb_spec 0 size); [|lia]); [reflexivity|].
  destruct (genData_broken inner (size - 0) ratio window w) as (w' & Hg & Hf);
    [lia | lia | apply Hbad |].
  rewrite Hg. cbn [bind fst snd app]. apply IH; try assumption.
  intros k. rewrite Hf. apply Hbad.
Qed.

(** C8 at failing inputs: for a Text Source of size 1 with ratio 1 and
    window 0, and for a Text Source of size 1 on a platform whose secure
    random reads fail, [Object()] does not return for any amount of
    fuel. *)
Theorem textSrc_Object_never_returns :
  (forall fuel w, textSrc.Object fuel text1_window0 w = OutOfFuel) /\
  (forall fuel w, broken w -> textSrc.Object fuel text1_plain w = OutOfFuel).
Proof.
  split.
  - intros fuel w. unfold textSrc.Object.
    change (getSize (textSrc.o text1_window0) (textSrc.rng text1_window0))
      with (1, textSrc.rng text1_window0).
    change (compRatio (textSrc.o text1_window0)) with 1.
    change (compWindow (textSrc.o text1_window0)) with 0.
    cbv beta iota.
    now rewrite build_loop_stuck_window by lia.
  - intros fuel w Hbad. unfold textSrc.Object.
    change (getSize (textSrc.o text1_plain) (textSrc.rng text1_plain))
      with (1, textSrc.rng text1_plain).
    change (compRatio (textSrc.o text1_plain)) with 0.
    change (compWindow (textSrc.o text1_plain)) with 0.
    cbv beta iota.
    now rewrite build_loop_stuck_broken by (auto; lia).
Qed.

(** On [broken_world] the second instance never returns. *)
Example textSrc_Object_on_broken_world fuel :
  textSrc.Object fuel text1_plain broken_world = OutOfFuel.
Proof.
  unfold textSrc.Object.
  change (getSize (textSrc.o text1_plain) (textSrc.rng text1_plain))
    with (1, textSrc.rng text1_plain).
  change (compRatio (textSrc.o text1_plain)) with 0.
  change (compWindow (textSrc.o text1_plain)) with 0.
  cbv beta iota.
  rewrite build_loop_stuck_broken; [reflexivity | lia | lia |].
  intros k. reflexivity.
Qed.

End Termination.

(** * Further properties of [genData] *)

Section GenDataContent.

Lemma nth_error_concat_repeat (u : list byte) (k : nat) :
  forall i,
    (i < k * List.length u)%nat ->
    nth_error (List.concat (repeat u k)) i = nth_error u (i mod List.length u).
Proof.
  induction k as [|k IH]; intros i Hi; [lia|].
  cbn [repeat List.concat].
  destruct (Nat.lt_ge_cases i (List.length u)) as [Hlt|Hge].
  - rewrite nth_error_app1 by assumption. now rewrite Nat.mod_small.
  - rewrite nth_error_app2 by assumption. rewrite IH by lia.
    f_equal.
    replace i with ((i - List.length u) + 1 * List.length u)%nat at 2 by lia.
    now rewrite Nat.Div0.mod_add.
Qed.

(** The remainder loop copies the first [todo] bytes from index [i] on, as
    long as they were there on entry. *)
Lemma fill_loop_copies (todo : nat) :
  forall i b,
    (i + todo <= List.length b)%nat ->
    fill_loop todo i b = Returns (b ++ firstn todo (skipn i b)).
Proof.
  induction todo as [|todo IH]; intros i b Hi; cbn [fill_loop firstn].
  - now rewrite app_nil_r.
  - destruct (nth_error b i) as [x|] eqn:Hx;
      [|apply nth_error_None in Hx; lia].
    rewrite IH by (rewrite length_app; cbn [List.length]; lia).
    f_equal.
    assert (Hskip : skipn i b = x :: skipn (S i) b).
    { clear -Hx. revert i Hx. induction b as [|y b IHb]; intros [|i] Hx;
        cbn in *; try discriminate.
      - now injection Hx as ->.
      - now apply IHb. }
    rewrite Hskip. cbn [firstn].
    rewrite skipn_app.
    replace (S i - List.length b)%nat with 0%nat by lia.
    change (skipn 0 [x]) with [x].
    rewrite firstn_app.
    replace (todo - List.length (skipn (S i) b))%nat with 0%nat
      by (rewrite length_skipn; lia).
    change (firstn 0 [x]) with (@nil byte).
    rewrite app_nil_r. now rewrite <- app_assoc.
Qed.

(** A run of [genData] with unique length [u >= 1], [k] whole copies and a
    remainder that fits in them. *)
Lemma genData_run_content fuel reqSize ratio window w u r k :
  genData_plan reqSize ratio window = (u, r, Z.of_nat k * u) ->
  1 <= u -> 0 <= r <= Z.of_nat k * u ->
  next_read_ok w -> (k <= fuel)%nat ->
  genData fuel reqSize ratio window w
  = Returns (List.concat (repeat (fresh (Z.to_nat u) w) k)
               ++ firstn (Z.to_nat r)
                    (List.concat (repeat (fresh (Z.to_nat u) w) k)),
             after_read (Z.to_nat u) w).
Proof.
  intros Hplan Hu Hr Hok Hfuel. unfold genData. rewrite Hplan.
  rewrite make_bytes_ok by lia. cbn [bind].
  rewrite Read_ok by assumption.
  set (uniq := fresh (Z.to_nat u) w).
  assert (Hlen : len uniq = u) by (unfold uniq; rewrite len_fresh; lia).
  pose proof (repeat_loop_copies k fuel uniq [] Hfuel) as Hrep.
  rewrite Hlen in Hrep. change (len (@nil byte)) with 0 in Hrep.
  rewrite Z.add_0_l in Hrep. rewrite Hrep by lia. cbn [bind app].
  rewrite fill_loop_copies.
  - reflexivity.
  - pose proof (len_concat_repeat uniq k) as Hc. unfold len in Hc, Hlen. lia.
Qed.

Lemma periodic_with_remainder (uniq : list byte) (k r i : nat) :
  (0 < List.length uniq)%nat ->
  (r <= k * List.length uniq)%nat ->
  (i < k * List.length uniq + r)%nat ->
  nth_error (List.concat (repeat uniq k)
               ++ firstn r (List.concat (repeat uniq k))) i
  = nth_error uniq (i mod List.length uniq).
Proof.
  intros Hu Hr Hi.
  assert (Hc : List.length (List.concat (repeat uniq k)) = (k * List.length uniq)%nat).
  { pose proof (len_concat_repeat uniq k) as H. unfold len in H. lia. }
  destruct (Nat.lt_ge_cases i (k * List.length uniq)) as [Hlt|Hge].
  - rewrite nth_error_app1 by lia. now apply nth_error_concat_repeat.
  - rewrite nth_error_app2 by lia. rewrite Hc.
    rewrite nth_error_firstn.
    destruct (Nat.ltb_spec (i - k * List.length uniq) r) as [_|Hbad]; [|lia].
    rewrite nth_error_concat_repeat by lia. f_equal.
    replace i with ((i - k * List.length uniq) + k * List.length uniq)%nat at 2 by lia.
    now rewrite Nat.Div0.mod_add.
Qed.

Lemma plan_unique_positive reqSize ratio window :
  1 <= reqSize -> 0 <= ratio -> 1 <= window ->
  ratio = 0 \/ reqSize <= window \/ ratio <= window ->
  1 <= fst (fst (genData_plan reqSize ratio window)).
Proof.
  intros Hreq Hratio Hwin Hsafe.
  destruct (Z.eq_dec ratio 0) as [->|Hnz].
  { rewrite plan_uncompressed by lia. cbn. lia. }
  destruct (Z_le_gt_dec reqSize window) as [Hin|Hcap].
  - destruct (Z_lt_le_dec reqSize ratio).
    + rewrite plan_small by lia. cbn. lia.
    + rewrite plan_in_window by lia. cbn [fst].
      destruct (Z.eq_dec (Z.quot reqSize ratio) 0) as [E|].
      * apply Z.quot_small_iff in E; lia.
      * pose proof (Z.quot_pos reqSize ratio). lia.
  - rewrite plan_capped by lia. cbn [fst].
    destruct (Z.eq_dec (Z.quot window ratio) 0) as [E|].
    + apply Z.quot_small_iff in E; lia.
    + pose proof (Z.quot_pos window ratio). lia.
Qed.

End GenDataContent.

Section GenDataMore.

Lemma genData_run_periodic fuel reqSize ratio window w u r k :
  genData_plan reqSize ratio window = (u, r, Z.of_nat k * u) ->
  1 <= u -> 0 <= r <= Z.of_nat k * u ->
  next_read_ok w -> (k <= fuel)%nat ->
  exists b,
    genData fuel reqSize ratio window w
    = Returns (b, after_read (Z.to_nat u) w) /\
    len b = Z.of_nat k * u + r /\
    forall i, (i < List.length b)%nat ->
              nth_error b i
              = nth_error (fresh (Z.to_nat u) w) (i mod Z.to_nat u).
Proof.
  intros Hplan Hu Hr Hok Hfuel.
  rewrite (genData_run_content fuel reqSize ratio window w u r k) by assumption.
  set (uniq := fresh (Z.to_nat u) w).
  assert (Hlen : List.length uniq = Z.to_nat u)
    by (unfold uniq, fresh; now rewrite length_map, length_seq).
  assert (Hc : List.length (List.concat (repeat uniq k)) = (k * Z.to_nat u)%nat).
  { pose proof (len_concat_repeat uniq k) as H. unfold len in H. lia. }
  eexists. split; [reflexivity|]. split.
  - rewrite len_app. unfold len. rewrite length_firstn, Hc. nia.
  - intros i Hi. rewrite <- Hlen. apply periodic_with_remainder.
    + lia.
    + rewrite Hlen. nia.
    + rewrite length_app, length_firstn, Hc in Hi. rewrite Hlen. lia.
Qed.

(** X1.  Whatever [genData] returns is periodic: byte [i] of the output is
    byte [i mod uniqueStrLen] of the unique block, the first
    [uniqueStrLen] bytes of the secure read, and nothing else is read. *)
Theorem genData_output_periodic fuel reqSize ratio window w :
  1 <= reqSize -> 0 <= ratio -> 1 <= window ->
  ratio = 0 \/ reqSize <= window \/ ratio <= window ->
  next_read_ok w -> (Z.to_nat reqSize <= fuel)%nat ->
  exists b,
    genData fuel reqSize ratio window w
    = Returns (b, after_read
                    (Z.to_nat (fst (fst (genData_plan reqSize ratio window)))) w) /\
    forall i,
      (i < List.length b)%nat ->
      nth_error b i
      = nth_error
          (fresh (Z.to_nat (fst (fst (genData_plan reqSize ratio window)))) w)
          (i mod Z.to_nat (fst (fst (genData_plan reqSize ratio window)))).
Proof.
  intros Hreq Hratio Hwin Hsafe Hok Hfuel.
  assert (Hgen : forall u r k,
            genData_plan reqSize ratio window = (u, r, Z.of_nat k * u) ->
            1 <= u -> 0 <= r <= Z.of_nat k * u -> (k <= fuel)%nat ->
            exists b,
              genData fuel reqSize ratio window w
              = Returns (b, after_read
                    (Z.to_nat (fst (fst (genData_plan reqSize ratio window)))) w) /\
              forall i,
                (i < List.length b)%nat ->
                nth_error b i
                = nth_error
                    (fresh (Z.to_nat (fst (fst (genData_plan reqSize ratio window)))) w)
                    (i mod Z.to_nat (fst (fst (genData_plan reqSize ratio window))))).
  { intros u r k Hplan Hu Hr Hk.
    destruct (genData_run_periodic fuel reqSize ratio window w u r k)
      as (b & Hrun & _ & Hper); try assumption.
    rewrite Hplan. cbn [fst]. exists b. split; assumption. }
  destruct (Z.eq_dec ratio 0) as [->|Hnz].
  { apply (Hgen reqSize 0 1%nat); try lia.
    rewrite plan_uncompressed by lia. now rewrite Z.mul_1_l. }
  destruct (Z_le_gt_dec reqSize window) as [Hin|Hcap].
  - destruct (Z_lt_le_dec reqSize ratio) as [Hsmall|Hbig].
    + apply (Hgen 1 0 (Z.to_nat reqSize)); try lia.
      rewrite plan_small by lia. rewrite Z2Nat.id by lia. now rewrite Z.mul_1_r.
    + destruct (quot_rem_pos reqSize ratio) as (Hq & Hr & Heq); [lia|lia|].
      assert (Hq1 : 1 <= Z.quot reqSize ratio).
      { destruct (Z.eq_dec (Z.quot reqSize ratio) 0) as [E|]; [|lia].
        apply Z.quot_small_iff in E; lia. }
      apply (Hgen (Z.quot reqSize ratio) (Z.rem reqSize ratio) (Z.to_nat ratio));
        try lia; [|nia].
      rewrite plan_in_window by lia. rewrite Z2Nat.id by lia.
      now rewrite Z.mul_comm.
  - destruct (quot_rem_pos window ratio) as (Hq & Hr & Heq); [lia|lia|].
    assert (Hq1 : 1 <= Z.quot window ratio).
    { destruct (Z.eq_dec (Z.quot window ratio) 0) as [E|]; [|lia].
      apply Z.quot_small_iff in E; lia. }
    apply (Hgen (Z.quot window ratio) (Z.rem window ratio) (Z.to_nat ratio));
      try lia; [|nia].
    rewrite plan_capped by lia. rewrite Z2Nat.id by lia.
    now rewrite Z.mul_comm.
Qed.

Lemma genData_output_periodic_witness :
  1 <= 14 /\ 0 <= 4 /\ 1 <= 100 /\ (4 = 0 \/ 14 <= 100 \/ 4 <= 100) /\
  next_read_ok letters_world /\ (Z.to_nat 14 <= 14)%nat /\
  exists b,
    genData 14 14 4 100 letters_world
    = Returns (b, after_read (Z.to_nat (fst (fst (genData_plan 14 4 100))))
                    letters_world) /\
    forall i,
      (i < List.length b)%nat ->
      nth_error b i
      = nth_error (fresh (Z.to_nat (fst (fst (genData_plan 14 4 100)))) letters_world)
                  (i mod Z.to_nat (fst (fst (genData_plan 14 4 100)))).
Proof.
  repeat (split; [first [lia | reflexivity | (simpl; lia)] |]).
  apply (genData_output_periodic 14 14 4 100 letters_world);
    [lia | lia | lia | lia | reflexivity | simpl; lia].
Defined.

Lemma genData_uncompressed_run fuel reqSize ratio window w :
  ratio <= 0 -> 0 <= reqSize -> next_read_ok w -> (1 <= fuel)%nat ->
  genData fuel reqSize ratio window w
  = Returns (fresh (Z.to_nat reqSize) w, after_read (Z.to_nat reqSize) w).
Proof.
  intros Hratio Hreq Hok Hfuel.
  destruct (Z.eq_dec reqSize 0) as [->|Hpos].
  - unfold genData. rewrite plan_uncompressed by lia.
    cbn [make_bytes Z.ltb Z.compare bind Z.to_nat Read].
    rewrite repeat_loop_eq. reflexivity.
  - rewrite (genData_run_content fuel reqSize ratio window w reqSize 0 1);
      try lia; try assumption.
    + cbn [repeat List.concat Z.to_nat firstn]. now rewrite !app_nil_r.
    + rewrite plan_uncompressed by lia. now rewrite Z.mul_1_l.
Qed.

(** X2.  Without compressibility control ([compRatio <= 0]) [genData]
    returns exactly the [reqSize] bytes it reads from the secure source,
    and an empty request reads nothing. *)
Theorem genData_uncompressed_is_secure_read fuel reqSize ratio window w :
  ratio <= 0 -> 0 <= reqSize -> next_read_ok w -> (1 <= fuel)%nat ->
  genData fuel reqSize ratio window w
  = Returns (fresh (Z.to_nat reqSize) w, after_read (Z.to_nat reqSize) w) /\
  (reqSize = 0 -> after_read (Z.to_nat reqSize) w = w).
Proof.
  intros Hratio Hreq Hok Hfuel.
  split; [now apply genData_uncompressed_run|]. now intros ->.
Qed.

Lemma genData_uncompressed_is_secure_read_witness :
  0 <= 0 /\ 0 <= 5 /\ next_read_ok letters_world /\ (1 <= 1)%nat /\
  genData 1 5 0 0 letters_world
  = Returns (fresh (Z.to_nat 5) letters_world, after_read (Z.to_nat 5) letters_world).
Proof.
  repeat (split; [first [lia | reflexivity] |]).
  apply (proj1 (genData_uncompressed_is_secure_read 1 5 0 0 letters_world
                  ltac:(lia) ltac:(lia) eq_refl ltac:(lia))).
Defined.

Lemma genData_capped_without_unique_panics fuel reqSize ratio window w :
  0 < window < ratio -> window < reqSize ->
  genData fuel reqSize ratio window w = Panics IndexOutOfRange.
Proof.
  intros Hwin Hreq. unfold genData. rewrite plan_capped by lia.
  rewrite Z.quot_small, Z.rem_small by lia.
  cbn [make_bytes Z.ltb Z.compare bind Z.to_nat Read Z.mul].
  rewrite repeat_loop_eq. cbn [len List.length Z.of_nat Z.eqb bind].
  destruct (Z.to_nat window) as [|n] eqn:E; [lia|].
  now rewrite fill_loop_empty_panics.
Qed.

(** X3.  [genData] returns only three lengths: nothing (failed read or
    exhausted window), the request, or the window when the request
    exceeds a window that holds at least one ratio unit. *)
Theorem genData_returned_lengths fuel reqSize ratio window w b w' :
  0 <= reqSize ->
  genData fuel reqSize ratio window w = Returns (b, w') ->
  len b = 0 \/ len b = reqSize \/
  (0 < ratio <= window /\ window < reqSize /\ len b = window).
Proof.
  intros Hreq Hrun.
  destruct (genData_returned_len _ _ _ _ _ _ _ Hrun)
    as [-> | (u & r & rep & Hplan & Hu & Hlen)]; [now left|].
  rewrite Hlen. revert Hplan. unfold genData_plan.
  destruct (Z.ltb_spec 0 ratio) as [Hpos|Hnp]; cbn [andb].
  - destruct (Z.leb_spec reqSize window) as [Hin|Hcap].
    + destruct (quot_rem_pos reqSize ratio) as (Hq & Hr & Heq); [lia|lia|].
      destruct (Z.eqb_spec (Z.quot reqSize ratio) 0); intros [= <- <- <-];
        right; left; lia.
    + intros [= <- <- <-].
      destruct (Z_le_gt_dec window 0) as [Hw|Hw].
      * left. pose proof (Z.rem_nonpos window ratio ltac:(lia) Hw).
        pose proof (Z.mul_quot_ge window ratio Hw ltac:(lia)). nia.
      * destruct (Z_lt_le_dec window ratio) as [Hsmall|Hbig].
        -- rewrite genData_capped_without_unique_panics in Hrun by lia.
           discriminate.
        -- destruct (quot_rem_pos window ratio) as (Hq & Hr & Heq); [lia|lia|].
           right; right. lia.
  - intros [= <- <- <-]. right; left. lia.
Qed.

Lemma genData_returned_lengths_witness :
  0 <= 10 /\
  genData 10 10 2 4 letters_world
  = Returns (list_byte_of_string "ABAB", after_read 2 letters_world) /\
  (len (list_byte_of_string "ABAB") = 0 \/
   len (list_byte_of_string "ABAB") = 10 \/
   (0 < 2 <= 4 /\ 4 < 10 /\ len (list_byte_of_string "ABAB") = 4)).
Proof.
  split; [lia|]. split; [vm_compute; reflexivity|].
  apply (genData_returned_lengths 10 10 2 4 letters_world
           (list_byte_of_string "ABAB") (after_read 2 letters_world));
    [lia | vm_compute; reflexivity].
Defined.

(** X4.  When the secure read fails, [genData] prints one [error:] line
    and returns nil; no entropy is consumed. *)
Theorem genData_read_failure fuel reqSize ratio window w :
  1 <= reqSize -> 0 <= ratio -> 1 <= window ->
  ratio = 0 \/ reqSize <= window \/ ratio <= window ->
  faulty w (reads w) = true ->
  genData fuel reqSize ratio window w
  = Returns ([], mkWorld (entropy w) (cursor w) (faulty w) (S (reads w))
                   (stdout w ++ ["error:"%string])
                   (partial w)).
Proof.
  intros Hreq Hratio Hwin Hsafe Hbad.
  pose proof (plan_unique_positive reqSize ratio window Hreq Hratio Hwin Hsafe) as Hu.
  unfold genData.
  destruct (genData_plan reqSize ratio window) as [[u r] rep].
  cbn [fst] in Hu. rewrite make_bytes_ok by lia. cbn [bind]. unfold Read.
  destruct (Z.to_nat u) as [|n] eqn:E; [lia|].
  rewrite Hbad. reflexivity.
Qed.

Lemma genData_read_failure_witness :
  1 <= 12 /\ 0 <= 4 /\ 1 <= 100 /\ (4 = 0 \/ 12 <= 100 \/ 4 <= 100) /\
  faulty broken_world (reads broken_world) = true /\
  genData 12 12 4 100 broken_world
  = Returns ([], mkWorld (entropy broken_world) (cursor broken_world)
                   (faulty broken_world) (S (reads broken_world))
                   (stdout broken_world ++ ["error:"%string])
                   (partial broken_world)).
Proof.
  repeat (split; [first [lia | reflexivity] |]).
  apply (genData_read_failure 12 12 4 100 broken_world);
    [lia | lia | lia | lia | reflexivity].
Defined.

(** X5.  With a positive ratio and a window [<= 0] below the request, the
    window-capped branch either panics in [make] (window [<= -compRatio])
    or returns the empty slice and leaves the secure source untouched. *)
Theorem genData_nonpositive_window fuel reqSize ratio window w :
  0 < ratio -> window <= 0 -> window < reqSize ->
  (window <= - ratio ->
   genData fuel reqSize ratio window w = Panics MakeSliceLen) /\
  (- ratio < window ->
   genData fuel reqSize ratio window w = Returns ([], w)).
Proof.
  intros Hr Hw Hreq. split.
  - intros Hlow. unfold genData. rewrite plan_capped by lia.
    assert (Hq : Z.quot window ratio < 0).
    { pose proof (Z.rem_bound_pos_neg window ratio Hr Hw).
      pose proof (Z.quot_rem' window ratio). nia. }
    unfold make_bytes. destruct (Z.ltb_spec (Z.quot window ratio) 0); [|lia].
    reflexivity.
  - intros Hhigh. apply genData_nothing_in_window; lia.
Qed.

Lemma genData_nonpositive_window_witness :
  0 < 2 /\ -4 <= 0 /\ -4 < 1 /\
  (-4 <= - 2 /\ genData 3 1 2 (-4) letters_world = Panics MakeSliceLen) /\
  0 < 2 /\ -1 <= 0 /\ -1 < 1 /\
  (- 2 < -1 /\ genData 3 1 2 (-1) letters_world = Returns ([], letters_world)).
Proof.
  repeat (split; [lia|]).
  split; [split; [lia|]|].
  - apply (proj1 (genData_nonpositive_window 3 1 2 (-4) letters_world
                    ltac:(lia) ltac:(lia) ltac:(lia))). lia.
  - repeat (split; [lia|]).
    apply (proj2 (genData_nonpositive_window 3 1 2 (-1) letters_world
                    ltac:(lia) ltac:(lia) ltac:(lia))). lia.
Defined.

End GenDataMore.

(** * Further properties of the Text Source *)

Section TextNames.

(** A decimal numeral followed by a dot determines the numeral. *)
Lemma uint_dot_inj (d1 : Decimal.uint) :
  forall (d2 : Decimal.uint) (x y : string),
    (NilEmpty.string_of_uint d1 ++ String "." x)%string
    = (NilEmpty.string_of_uint d2 ++ String "." y)%string ->
    d1 = d2.
Proof.
  induction d1 as [|d1 IH|d1 IH|d1 IH|d1 IH|d1 IH|d1 IH|d1 IH|d1 IH|d1 IH|d1 IH];
    intros [|d2|d2|d2|d2|d2|d2|d2|d2|d2|d2] x y H;
    cbn [NilEmpty.string_of_uint String.append] in H;
    try discriminate; try reflexivity;
    injection H as H; f_equal; eapply IH; exact H.
Qed.

Lemma sprint_d_dot_inj (a b : Z) (x y : string) :
  0 <= a -> 0 <= b ->
  (sprint_d a ++ "." ++ x)%string = (sprint_d b ++ "." ++ y)%string ->
  a = b.
Proof.
  intros Ha Hb H. unfold sprint_d in H.
  change ("." ++ x)%string with (String "." x) in H.
  change ("." ++ y)%string with (String "." y) in H.
  apply uint_dot_inj in H. apply DecimalN.Unsigned.to_uint_inj in H. lia.
Qed.

Lemma mod_shift_fixed (c j : Z) :
  0 <= c < 2 ^ 64 -> 1 <= j < 2 ^ 64 -> (c + j) mod 2 ^ 64 <> c.
Proof.
  intros Hc Hj H.
  pose proof (Z.div_mod (c + j) (2 ^ 64) ltac:(lia)) as Hdm.
  pose proof (Z.mod_pos_bound (c + j) (2 ^ 64) ltac:(lia)) as Hb.
  rewrite H in Hdm.
  assert (Hq : (c + j) / 2 ^ 64 = 0 \/ (c + j) / 2 ^ 64 = 1) by nia.
  destruct Hq as [Hq|Hq]; rewrite Hq in Hdm; lia.
Qed.

(** The names that [k] successive calls hand back carry the counters of
    their calls and are pairwise distinct. *)
Lemma textSrc_Objects_names (k : nat) :
  forall fuel s w names s' w',
    0 <= textSrc.counter s < 2 ^ 64 -> Z.of_nat k <= 2 ^ 64 ->
    textSrc_Objects k fuel s w = Returns (names, s', w') ->
    NoDup names /\
    List.length names = k /\
    textSrc.counter s' = (textSrc.counter s + Z.of_nat k) mod 2 ^ 64 /\
    forall n, In n names ->
      exists j x, 1 <= j <= Z.of_nat k /\
                  n = (sprint_d ((textSrc.counter s + j) mod 2 ^ 64)
                         ++ "." ++ x)%string.
Proof.
  induction k as [|k IH]; intros fuel s w names s' w' Hc Hk H.
  - cbn [textSrc_Objects] in H. injection H as <- <- _.
    split; [constructor|]. split; [reflexivity|].
    split; [rewrite Z.add_0_r, Z.mod_small by lia; reflexivity|].
    intros n [].
  - cbn [textSrc_Objects] in H.
    destruct (textSrc.Object fuel s w) as [[s1 w1]| |] eqn:H1; try discriminate.
    cbn [bind fst snd] in H.
    destruct (textSrc_Objects k fuel s1 w1) as [[[rest s2] w2]| |] eqn:H2;
      try discriminate.
    cbn [bind fst snd] in H. injection H as <- <- _.
    apply textSrc_Object_run in H1.
    destruct H1 as (_ & _ & _ & _ & Hc1 & Hname).
    assert (Hr1 : 0 <= textSrc.counter s1 < 2 ^ 64)
      by (rewrite Hc1; apply Z.mod_pos_bound; lia).
    destruct (IH fuel s1 w1 rest s2 w2 Hr1 ltac:(lia) H2)
      as (Hnd & Hlen & Hc2 & Hform).
    split; [|split; [|split]].
    + constructor; [|exact Hnd].
      intros Hin. destruct (Hform _ Hin) as (j & x & Hj & Hn).
      rewrite Hname in Hn. apply sprint_d_dot_inj in Hn.
      * symmetry in Hn. revert Hn. apply mod_shift_fixed; lia.
      * lia.
      * apply Z.mod_pos_bound; lia.
    + cbn [List.length]. now rewrite Hlen.
    + rewrite Hc2, Hc1, Zplus_mod_idemp_l. f_equal. lia.
    + intros n [<- | Hin].
      * exists 1. eexists. split; [lia|]. rewrite Hname, Hc1. reflexivity.
      * destruct (Hform _ Hin) as (j & x & Hj & ->).
        exists (j + 1), x. split; [lia|].
        rewrite Hc1, Zplus_mod_idemp_l.
        replace (textSrc.counter s + 1 + j) with (textSrc.counter s + (j + 1))
          by lia.
        reflexivity.
Qed.

(** X6.  On one Text Source, the names of up to [2^64] successive
    [Object()] calls are pairwise distinct, whatever suffixes the seeded
    generator draws: the counter in front tells them apart. *)
Theorem textSrc_names_pairwise_distinct k fuel s w names s' w' :
  0 <= textSrc.counter s < 2 ^ 64 -> Z.of_nat k <= 2 ^ 64 ->
  textSrc_Objects k fuel s w = Returns (names, s', w') ->
  NoDup names /\ List.length names = k /\
  textSrc.counter s' = (textSrc.counter s + Z.of_nat k) mod 2 ^ 64.
Proof.
  intros Hc Hk H.
  destruct (textSrc_Objects_names k fuel s w names s' w' Hc Hk H)
    as (H1 & H2 & H3 & _).
  repeat split; assumption.
Qed.

Lemma textSrc_names_pairwise_distinct_witness :
  0 <= textSrc.counter cyclic_text8 < 2 ^ 64 /\ Z.of_nat 2 <= 2 ^ 64 /\
  textSrc_Objects 2 8 cyclic_text8 letters_world
  = Returns (fst (fst cyclic_text8_twice), snd (fst cyclic_text8_twice),
             snd cyclic_text8_twice) /\
  fst (fst cyclic_text8_twice)
  = ["1.456789abcdef0123.txt"; "2.456789abcdef0123.txt"]%string /\
  NoDup (fst (fst cyclic_text8_twice)) /\
  List.length (fst (fst cyclic_text8_twice)) = 2%nat /\
  textSrc.counter (snd (fst cyclic_text8_twice))
  = (textSrc.counter cyclic_text8 + Z.of_nat 2) mod 2 ^ 64.
Proof.
  split; [vm_compute; split; [discriminate|reflexivity]|].
  split; [vm_compute; discriminate|].
  split; [vm_compute; reflexivity|].
  split; [vm_compute; reflexivity|].
  apply (textSrc_names_pairwise_distinct 2 8 cyclic_text8 letters_world
           (fst (fst cyclic_text8_twice)) (snd (fst cyclic_text8_twice))
           (snd cyclic_text8_twice)).
  - vm_compute; split; [discriminate|reflexivity].
  - vm_compute; discriminate.
  - vm_compute; reflexivity.
Defined.

End TextNames.

Section TextPayload.

Lemma build_loop_uncompressed fuel inner size ratio window w :
  ratio <= 0 -> 0 <= size -> next_read_ok w ->
  (1 <= fuel)%nat -> (1 <= inner)%nat ->
  build_loop fuel inner size ratio window [] w
  = Returns (fresh (Z.to_nat size) w, after_read (Z.to_nat size) w).
Proof.
  intros Hr Hs Hok Hfuel Hinner. rewrite build_loop_eq.
  change (len (@nil byte)) with 0.
  destruct (Z.ltb_spec 0 size) as [Hpos|Hzero].
  - destruct fuel as [|fuel]; [lia|].
    rewrite Z.sub_0_r.
    rewrite genData_uncompressed_run by (auto; lia).
    cbn [bind fst snd app]. rewrite build_loop_eq.
    rewrite len_fresh, Z2Nat.id, Z.ltb_irrefl by lia. reflexivity.
  - replace size with 0 by lia. reflexivity.
Qed.

Lemma genData_faulty fuel reqSize ratio window w b w' :
  genData fuel reqSize ratio window w = Returns (b, w') -> faulty w' = faulty w.
Proof.
  unfold genData.
  destruct (genData_plan reqSize ratio window) as [[u r] rep].
  destruct (make_bytes u); try discriminate. cbn [bind].
  assert (HR : forall n, faulty (snd (Read n w)) = faulty w).
  { intros n. unfold Read. destruct n; [reflexivity|].
    destruct (faulty w (reads w)); reflexivity. }
  specialize (HR (Z.to_nat u)).
  destruct (Read (Z.to_nat u) w) as [[uniq err] w1]. cbn [snd] in HR.
  destruct err.
  - intros H. assert (E : println "error:"%string w1 = w') by congruence.
    rewrite <- E. exact HR.
  - destruct (repeat_loop fuel uniq [] rep) as [whole| |]; try discriminate.
    cbn [bind].
    destruct (fill_loop (Z.to_nat r) 0 whole) as [full| |]; try discriminate.
    cbn [bind]. intros H. assert (E : w1 = w') by congruence.
    rewrite <- E. exact HR.
Qed.

Lemma build_loop_healthy fuel inner size ratio window :
  forall b w r w',
    build_loop fuel inner size ratio window b w = Returns (r, w') ->
    healthy w -> healthy w'.
Proof.
  induction fuel as [|fuel IH]; intros b w r w'; rewrite build_loop_eq;
    destruct (len b <? size); try discriminate;
    try (intros [= _ <-]; exact (fun H => H)).
  destruct (genData inner (size - len b) ratio window w) as [[g w1]| |] eqn:Hg;
    try discriminate.
  cbn [bind fst snd]. intros Hloop Hw. eapply IH; [exact Hloop|].
  intros k. rewrite (genData_faulty _ _ _ _ _ _ _ Hg). apply Hw.
Qed.

(** X7.  A Text Source without compressibility control
    ([compRatio <= 0]) stores exactly the [Size] bytes that one secure
    read delivers: the payload is fully random. *)
Theorem textSrc_uncompressed_payload fuel s w :
  compRatio (textSrc.o s) <= 0 ->
  0 <= fst (getSize (textSrc.o s) (textSrc.rng s)) ->
  next_read_ok w -> (1 <= fuel)%nat ->
  exists s',
    textSrc.Object fuel s w
    = Returns (s', after_read
                     (Z.to_nat (fst (getSize (textSrc.o s) (textSrc.rng s)))) w) /\
    Size (textSrc.obj s') = fst (getSize (textSrc.o s) (textSrc.rng s)) /\
    data (textSrc.buf s')
    = fresh (Z.to_nat (fst (getSize (textSrc.o s) (textSrc.rng s)))) w.
Proof.
  intros Hr Hs Hok Hfuel. unfold textSrc.Object.
  destruct (getSize (textSrc.o s) (textSrc.rng s)) as [n rng1]. cbn [fst] in *.
  rewrite build_loop_uncompressed by (auto; lia). cbn [bind fst snd].
  unfold Reset. cbn [data].
  destruct (Z.ltb_spec n 0); [lia|].
  rewrite len_fresh, Z2Nat.id by lia.
  destruct (Z.ltb_spec 0 n); destruct (Z.eqb_spec n 0); cbn [andb bind]; try lia;
    eexists; repeat split.
Qed.

Lemma textSrc_uncompressed_payload_witness :
  compRatio (textSrc.o text1_plain) <= 0 /\
  0 <= fst (getSize (textSrc.o text1_plain) (textSrc.rng text1_plain)) /\
  next_read_ok letters_world /\ (1 <= 1)%nat /\
  exists s',
    textSrc.Object 1 text1_plain letters_world
    = Returns (s', after_read
                     (Z.to_nat (fst (getSize (textSrc.o text1_plain)
                                             (textSrc.rng text1_plain))))
                     letters_world) /\
    Size (textSrc.obj s')
    = fst (getSize (textSrc.o text1_plain) (textSrc.rng text1_plain)) /\
    data (textSrc.buf s')
    = fresh (Z.to_nat (fst (getSize (textSrc.o text1_plain)
                                    (textSrc.rng text1_plain))))
            letters_world.
Proof.
  assert (H1 : compRatio (textSrc.o text1_plain) <= 0)
    by (vm_compute; discriminate).
  assert (H2 : 0 <= fst (getSize (textSrc.o text1_plain) (textSrc.rng text1_plain)))
    by (vm_compute; discriminate).
  split; [exact H1|]. split; [exact H2|]. split; [reflexivity|]. split; [lia|].
  apply (textSrc_uncompressed_payload 1 text1_plain letters_world H1 H2);
    [reflexivity | lia].
Defined.

(** X8.  With a working secure source, a window of at least one byte and
    a ratio that is 0 or fits in the window, [textSrc.Object] returns
    once the fuel covers [Size] iterations: the accumulation loop gains
    at least one byte per round. *)
Theorem textSrc_Object_returns fuel s w :
  healthy w ->
  0 <= compRatio (textSrc.o s) -> 1 <= compWindow (textSrc.o s) ->
  compRatio (textSrc.o s) = 0 \/ compRatio (textSrc.o s) <= compWindow (textSrc.o s) ->
  0 <= fst (getSize (textSrc.o s) (textSrc.rng s)) ->
  (Z.to_nat (fst (getSize (textSrc.o s) (textSrc.rng s))) <= fuel)%nat ->
  exists s' w',
    textSrc.Object fuel s w = Returns (s', w') /\
    len (data (textSrc.buf s')) = fst (getSize (textSrc.o s) (textSrc.rng s)) /\
    healthy w'.
Proof.
  intros Hw Hr Hwin Hcase Hsize Hfuel.
  destruct (textSrc_Object_terminates fuel s w Hw Hr Hwin Hcase Hsize Hfuel)
    as [[s' w'] Hrun].
  exists s', w'. split; [exact Hrun|].
  pose proof (textSrc_Object_run fuel s w s' w' Hrun) as (_ & Hs & Hl & _).
  split; [congruence|].
  revert Hrun. unfold textSrc.Object.
  destruct (getSize (textSrc.o s) (textSrc.rng s)) as [n rng1].
  destruct (build_loop fuel fuel n (compRatio (textSrc.o s))
              (compWindow (textSrc.o s)) [] w) as [[b w1]| |] eqn:Hloop;
    try discriminate.
  cbn [bind fst snd].
  destruct (Reset _ n); try discriminate. cbn [bind]. intros [= _ <-].
  eapply build_loop_healthy; eauto.
Qed.

Lemma textSrc_Object_returns_witness :
  healthy letters_world /\
  0 <= compRatio (textSrc.o text8) /\ 1 <= compWindow (textSrc.o text8) /\
  (compRatio (textSrc.o text8) = 0 \/
   compRatio (textSrc.o text8) <= compWindow (textSrc.o text8)) /\
  0 <= fst (getSize (textSrc.o text8) (textSrc.rng text8)) /\
  (Z.to_nat (fst (getSize (textSrc.o text8) (textSrc.rng text8))) <= 8)%nat /\
  exists s' w',
    textSrc.Object 8 text8 letters_world = Returns (s', w') /\
    len (data (textSrc.buf s'))
    = fst (getSize (textSrc.o text8) (textSrc.rng text8)) /\
    healthy w'.
Proof.
  assert (H0 : healthy letters_world) by (intros k; reflexivity).
  assert (H1 : 0 <= compRatio (textSrc.o text8)) by (vm_compute; discriminate).
  assert (H2 : 1 <= compWindow (textSrc.o text8)) by (vm_compute; discriminate).
  assert (H3 : compRatio (textSrc.o text8) = 0 \/
               compRatio (textSrc.o text8) <= compWindow (textSrc.o text8))
    by (right; vm_compute; discriminate).
  assert (H4 : 0 <= fst (getSize (textSrc.o text8) (textSrc.rng text8)))
    by (vm_compute; discriminate).
  assert (H5 : (Z.to_nat (fst (getSize (textSrc.o text8) (textSrc.rng text8)))
                <= 8)%nat) by (vm_compute; lia).
  repeat (split; [assumption|]).
  apply (textSrc_Object_returns 8 text8 letters_world H0 H1 H2 H3 H4 H5).
Defined.

End TextPayload.

(** * Further properties of the Random Source *)

Section PlainSrcMore.

Lemma leftover_nothing n w :
  partial w (reads w) = [] -> leftover n w = repeat x00 n.
Proof.
  intros H. unfold leftover. rewrite H, firstn_nil. cbn [app].
  rewrite firstn_all2 by (rewrite repeat_length; lia). reflexivity.
Qed.

(** X9.  When the secure read fails, [plainSrc.Object] still returns an
    object and prints one [error:] line.  The payload has [Size] bytes and
    repeats the first quarter of whatever the failed read left in the
    zeroed slice: the bytes delivered before the error, then zeros.  It
    is all zero when the read had delivered nothing. *)
Theorem plainSrc_Object_read_failure c w :
  4 <= fst (getSize (plainSrc.o c) (plainSrc.rng c)) ->
  faulty w (reads w) = true ->
  exists c',
    plainSrc.Object c w
    = Returns (c', mkWorld (entropy w) (cursor w) (faulty w) (S (reads w))
                     (stdout w ++ ["error:"%string])
                   (partial w)) /\
    Size (plainSrc.obj c') = fst (getSize (plainSrc.o c) (plainSrc.rng c)) /\
    len (data (plainSrc.buf c')) = fst (getSize (plainSrc.o c) (plainSrc.rng c)) /\
    (forall i,
       (i < Z.to_nat (fst (getSize (plainSrc.o c) (plainSrc.rng c))))%nat ->
       nth_error (data (plainSrc.buf c')) i
       = nth_error
           (leftover (Z.to_nat (fst (getSize (plainSrc.o c) (plainSrc.rng c)))) w)
           (i mod Z.to_nat
                    (Z.quot (fst (getSize (plainSrc.o c) (plainSrc.rng c))) 4))) /\
    (partial w (reads w) = [] ->
     data (plainSrc.buf c')
     = repeat x00 (Z.to_nat (fst (getSize (plainSrc.o c) (plainSrc.rng c))))).
Proof.
  destruct (getSize (plainSrc.o c) (plainSrc.rng c)) as [n rng1] eqn:Hsize.
  cbn [fst]. intros Hn Hbad.
  assert (Hread : Read (Z.to_nat n) w
                  = (leftover (Z.to_nat n) w, true,
                     mkWorld (entropy w) (cursor w) (faulty w) (S (reads w))
                       (stdout w) (partial w))).
  { unfold Read. destruct (Z.to_nat n) as [|m] eqn:E; [lia|]. now rewrite Hbad. }
  destruct (plainSrc_Object_run c w n rng1 _ _ _ Hsize Hread ltac:(lia))
    as (payload & Hrun & Hlen & Hnth).
  eexists. split; [exact Hrun|]. split; [reflexivity|]. cbn [plainSrc.buf data].
  split; [exact Hlen|]. split; [exact Hnth|].
  intros Hnone. apply nth_error_ext. intros i.
  destruct (Nat.lt_ge_cases i (Z.to_nat n)) as [Hlt|Hge].
  - rewrite Hnth by assumption. rewrite leftover_nothing by assumption.
    assert (Hq : (0 < Z.to_nat (Z.quot n 4))%nat).
    { destruct (quot_rem_pos n 4) as (H1 & H2 & H3); lia. }
    assert (Hm : (i mod Z.to_nat (Z.quot n 4) < Z.to_nat n)%nat).
    { pose proof (Nat.mod_upper_bound i (Z.to_nat (Z.quot n 4)) ltac:(lia)).
      destruct (quot_rem_pos n 4) as (H1 & H2 & H3); lia. }
    rewrite !nth_error_repeat by assumption. reflexivity.
  - assert (Hp : (List.length payload <= i)%nat) by (unfold len in Hlen; lia).
    apply nth_error_None in Hp. rewrite Hp. symmetry.
    apply nth_error_None. rewrite repeat_length. lia.
Qed.

Lemma plainSrc_Object_read_failure_witness :
  4 <= fst (getSize (plainSrc.o plain8) (plainSrc.rng plain8)) /\
  faulty broken_world (reads broken_world) = true /\
  exists c',
    plainSrc.Object plain8 broken_world
    = Returns (c', mkWorld (entropy broken_world) (cursor broken_world)
                     (faulty broken_world) (S (reads broken_world))
                     (stdout broken_world ++ ["error:"%string])
                   (partial broken_world)) /\
    Size (plainSrc.obj c')
    = fst (getSize (plainSrc.o plain8) (plainSrc.rng plain8)) /\
    len (data (plainSrc.buf c'))
    = fst (getSize (plainSrc.o plain8) (plainSrc.rng plain8)) /\
    (forall i,
       (i < Z.to_nat (fst (getSize (plainSrc.o plain8) (plainSrc.rng plain8))))%nat ->
       nth_error (data (plainSrc.buf c')) i
       = nth_error
           (leftover (Z.to_nat (fst (getSize (plainSrc.o plain8)
                                             (plainSrc.rng plain8)))) broken_world)
           (i mod Z.to_nat
                    (Z.quot (fst (getSize (plainSrc.o plain8)
                                          (plainSrc.rng plain8))) 4))) /\
    (partial broken_world (reads broken_world) = [] ->
     data (plainSrc.buf c')
     = repeat x00 (Z.to_nat (fst (getSize (plainSrc.o plain8)
                                          (plainSrc.rng plain8))))).
Proof.
  assert (H : 4 <= fst (getSize (plainSrc.o plain8) (plainSrc.rng plain8)))
    by (vm_compute; discriminate).
  split; [exact H|]. split; [reflexivity|].
  apply (plainSrc_Object_read_failure plain8 broken_world H eq_refl).
Defined.

(** X10.  A returning [plainSrc.Object] call with a working secure source
    reads exactly [Size] bytes from it (four times what the payload
    keeps) and prints nothing; for size 0 the secure source is not
    touched. *)
Theorem plainSrc_Object_consumes_Size c w c' w' :
  next_read_ok w ->
  plainSrc.Object c w = Returns (c', w') ->
  w' = after_read (Z.to_nat (Size (plainSrc.obj c'))) w /\
  stdout w' = stdout w /\
  (Size (plainSrc.obj c') = 0 -> w' = w /\ data (plainSrc.buf c') = []).
Proof.
  intros Hok Hrun.
  destruct (getSize (plainSrc.o c) (plainSrc.rng c)) as [n rng1] eqn:Hsize.
  assert (Hn : n = 0 \/ 4 <= n)
    by (exact (plainSrc_Object_returns_size c w _ n rng1 Hsize Hrun)).
  destruct (plainSrc_Object_run c w n rng1 _ _ _ Hsize (Read_ok _ w Hok) Hn)
    as (payload & Hrun' & Hlen & _).
  rewrite Hrun' in Hrun. injection Hrun as <- <-.
  cbn [plainSrc.obj plainSrc.buf data Size setName setReader setSize].
  split; [reflexivity|]. split.
  - destruct (Z.to_nat n); reflexivity.
  - intros ->. split; [reflexivity|].
    destruct payload; [reflexivity|]. unfold len in Hlen. cbn in Hlen. lia.
Qed.

Lemma plainSrc_Object_consumes_Size_witness :
  next_read_ok letters_world /\
  plainSrc.Object plain8 letters_world
  = Returns (fst plain8_after, snd plain8_after) /\
  snd plain8_after
  = after_read (Z.to_nat (Size (plainSrc.obj (fst plain8_after)))) letters_world /\
  stdout (snd plain8_after) = stdout letters_world /\
  (Size (plainSrc.obj (fst plain8_after)) = 0 ->
   snd plain8_after = letters_world /\ data (plainSrc.buf (fst plain8_after)) = []).
Proof.
  split; [reflexivity|]. split; [vm_compute; reflexivity|].
  apply (plainSrc_Object_consumes_Size plain8 letters_world
           (fst plain8_after) (snd plain8_after));
    [reflexivity | vm_compute; reflexivity].
Defined.

End PlainSrcMore.


(** * The [Read] method of the seeded generator *)

Section SeededRead.

Lemma read_byte_step src b q r :
  MathRand.cut_at src b q r ->
  fst (MathRand.read_byte r) = MathRand.stream_byte src b q /\
  MathRand.cut_at src b (S q) (snd (MathRand.read_byte r)).
Proof.
  unfold MathRand.cut_at, MathRand.stream_byte, MathRand.read_byte. intros [Hsrc Hst].
  pose proof (Nat.Div0.div_mod q 7) as Hq.
  pose proof (Nat.mod_upper_bound q 7 ltac:(lia)) as Hq7.
  pose proof (Nat.Div0.div_mod (S q) 7) as Hs.
  pose proof (Nat.mod_upper_bound (S q) 7 ltac:(lia)) as Hs7.
  destruct (Nat.eqb_spec (q mod 7) 0) as [Hz|Hnz].
  - destruct Hst as [Hpos Hdrawn]. rewrite Hpos. cbn [Z.eqb fst snd MathRand.output
      MathRand.readPos MathRand.drawn MathRand.readVal].
    rewrite Hsrc, Hdrawn, Hz. change (8 * Z.of_nat 0) with 0. rewrite Z.shiftr_0_r.
    split; [reflexivity|]. split; [reflexivity|].
    assert (H1 : (S q mod 7 = 1)%nat) by lia.
    assert (H2 : (S q / 7 = q / 7)%nat) by lia.
    rewrite H1, H2. cbn [Nat.eqb]. repeat split; try lia.
  - destruct Hst as (Hpos & Hdrawn & Hval).
    destruct (Z.eqb_spec (MathRand.readPos r) 0) as [E|_]; [lia|].
    cbn [fst snd MathRand.output MathRand.readPos MathRand.drawn MathRand.readVal].
    rewrite Hval. split; [reflexivity|]. split; [exact Hsrc|].
    rewrite Z.shiftr_shiftr by lia.
    destruct (Nat.eqb_spec (S q mod 7) 0) as [Hz'|Hnz'].
    + split; lia.
    + assert (H1 : (S q mod 7 = q mod 7 + 1)%nat) by lia.
      assert (H2 : (S q / 7 = q / 7)%nat) by lia.
      rewrite H1, H2. repeat split; try lia. f_equal. lia.
Qed.

Lemma read_bytes_stream src b n :
  forall q r,
    MathRand.cut_at src b q r ->
    fst (MathRand.read_bytes n r) = map (MathRand.stream_byte src b) (seq q n) /\
    MathRand.cut_at src b (q + n) (snd (MathRand.read_bytes n r)).
Proof.
  induction n as [|n IH]; intros q r Hcut; cbn [MathRand.read_bytes fst snd seq map].
  - rewrite Nat.add_0_r. split; [reflexivity|exact Hcut].
  - destruct (read_byte_step src b q r Hcut) as [Hb Hnext].
    destruct (IH (S q) _ Hnext) as [Hrest Hend].
    rewrite Hb, Hrest. split; [reflexivity|].
    now rewrite <- Nat.add_succ_comm.
Qed.

Lemma cut_at_New src : MathRand.cut_at src 0 0 (MathRand.New src).
Proof. unfold MathRand.cut_at, MathRand.New. cbn. repeat split. Qed.

Lemma length_read_bytes n : forall r, List.length (fst (MathRand.read_bytes n r)) = n.
Proof.
  induction n as [|n IH]; intros r; cbn [MathRand.read_bytes fst List.length];
    [reflexivity|]. now rewrite IH.
Qed.

(** What [Read] hands back on a generator that was just made with [New]:
    the first [n] bytes of the stream, after [ceil(n / 7)] draws. *)
Lemma Read_New src n :
  fst (fst (MathRand.Read n (MathRand.New src))) = map (MathRand.stream_byte src 0) (seq 0 n) /\
  MathRand.drawn (snd (MathRand.Read n (MathRand.New src))) = ((n + 6) / 7)%nat /\
  MathRand.output (snd (MathRand.Read n (MathRand.New src))) = src.
Proof.
  unfold MathRand.Read. cbn [fst snd].
  destruct (read_bytes_stream src 0 n 0 _ (cut_at_New src)) as [Hb Hcut].
  split; [exact Hb|]. cbn [Nat.add] in Hcut. destruct Hcut as [Hsrc Hst].
  split; [|exact Hsrc].
  pose proof (Nat.Div0.div_mod n 7) as Hq.
  pose proof (Nat.mod_upper_bound n 7 ltac:(lia)) as Hq7.
  pose proof (Nat.Div0.div_mod (n + 6) 7) as Hs.
  pose proof (Nat.mod_upper_bound (n + 6) 7 ltac:(lia)) as Hs7.
  destruct (Nat.eqb_spec (n mod 7) 0); [destruct Hst as [_ ->]|destruct Hst as (_ & -> & _)];
    lia.
Qed.

End SeededRead.

(** * Further properties of the constructors and of the [Source] interface *)

Section Interface.

Variable NewSource : Z -> MathRand.Source.

(** X11.  [Object()] never changes what [Prefix()] reports, nor the
    content type of the object, nor the kind of the source. *)
Theorem Source_Object_keeps_prefix fuel s w s' w' :
  Source_Object fuel s w = Returns (s', w') ->
  Source_Prefix s' = Source_Prefix s /\
  ContentType (Source_obj s') = ContentType (Source_obj s) /\
  match s, s' with
  | PlainSrc c, PlainSrc c' => plainSrc.o c' = plainSrc.o c
  | TextSrc t, TextSrc t' => textSrc.o t' = textSrc.o t
  | _, _ => False
  end.
Proof.
  destruct s as [c|t]; cbn [Source_Object].
  - destruct (plainSrc.Object c w) as [[c' w1]| |] eqn:Hrun; try discriminate.
    cbn [bind fst snd]. intros [= <- _].
    destruct (getSize (plainSrc.o c) (plainSrc.rng c)) as [n rng1] eqn:Hsize.
    destruct (Read (Z.to_nat n) w) as [[build err] w2] eqn:Hread.
    assert (Hn : n = 0 \/ 4 <= n)
      by (exact (plainSrc_Object_returns_size c w _ n rng1 Hsize Hrun)).
    destruct (plainSrc_Object_run c w n rng1 build err w2 Hsize Hread Hn)
      as (payload & Hrun' & _).
    rewrite Hrun' in Hrun. injection Hrun as <- _. repeat split.
  - destruct (textSrc.Object fuel t w) as [[t' w1]| |] eqn:Hrun; try discriminate.
    cbn [bind fst snd]. intros [= <- _]. revert Hrun. unfold textSrc.Object.
    destruct (getSize (textSrc.o t) (textSrc.rng t)) as [n rng1].
    destruct (build_loop fuel fuel n (compRatio (textSrc.o t))
                (compWindow (textSrc.o t)) [] w) as [[b w2]| |];
      try discriminate.
    cbn [bind fst snd]. destruct (Reset _ n); try discriminate.
    cbn [bind]. intros [= <- _]. repeat split.
Qed.

Lemma Source_Object_keeps_prefix_witness :
  Source_Object 8 (TextSrc text8) letters_world
  = Returns (TextSrc (fst text8_after), snd text8_after) /\
  Source_Prefix (TextSrc (fst text8_after)) = Source_Prefix (TextSrc text8) /\
  ContentType (Source_obj (TextSrc (fst text8_after)))
  = ContentType (Source_obj (TextSrc text8)) /\
  textSrc.o (fst text8_after) = textSrc.o text8.
Proof.
  split; [vm_compute; reflexivity|].
  apply (Source_Object_keeps_prefix 8 (TextSrc text8) letters_world
           (TextSrc (fst text8_after)) (snd text8_after)).
  vm_compute. reflexivity.
Defined.

(** What a source that [newRandom] returned looks like. *)
Lemma newRandom_built global o c :
  newRandom NewSource global o = Returns (Some (PlainSrc c), None) ->
  0 < Z.min (RandomOpts.size (random o)) (totalSize o) /\
  totalSize o <= maxAlloc /\
  c = plainSrc.mk o
        (snd (MathRand.Read
                (Z.to_nat (Z.min (RandomOpts.size (random o)) (totalSize o)))
                (seeded NewSource global (RandomOpts.seed (random o)))))
        (mkObject None "" "text/plain" 0 (namePrefix o))
        (mkCircularBuffer
           (fst (fst (MathRand.Read
                        (Z.to_nat (Z.min (RandomOpts.size (random o)) (totalSize o)))
                        (seeded NewSource global (RandomOpts.seed (random o))))))
           (totalSize o))
        [].
Proof.
  unfold newRandom. rewrite capped_size.
  destruct (Z.leb_spec (Z.min (RandomOpts.size (random o)) (totalSize o)) 0)
    as [|Hpos]; [discriminate|].
  cbn beta iota delta [MathRand.Read].
  destruct (Z_le_gt_dec (totalSize o) maxAlloc) as [Hfit|Hbig].
  - rewrite (proj1 (make_cap_empty (totalSize o))) by lia.
    cbn [bind]. intros [= <-]. repeat split; assumption.
  - rewrite (proj2 (make_cap_empty (totalSize o))) by lia. discriminate.
Qed.

Lemma newText_built global o t :
  newText NewSource global o = (Some (TextSrc t), None) ->
  0 < Z.min (TextOpts.size (text o)) (totalSize o) /\
  t = textSrc.mk 0 o
        (mkCircularBuffer
           (fst (fst (MathRand.Read
                        (Z.to_nat (Z.min (TextOpts.size (text o)) (totalSize o)))
                        (seeded NewSource global (TextOpts.seed (text o))))))
           (Z.min (TextOpts.size (text o)) (totalSize o)))
        (snd (MathRand.Read
                (Z.to_nat (Z.min (TextOpts.size (text o)) (totalSize o)))
                (seeded NewSource global (TextOpts.seed (text o)))))
        (mkObject None "" "text/plain" 0 (namePrefix o)).
Proof.
  unfold newText. rewrite capped_size.
  destruct (Z.leb_spec (Z.min (TextOpts.size (text o)) (totalSize o)) 0)
    as [|Hpos]; [discriminate|].
  cbn beta iota delta [MathRand.Read]. intros [= <-]. split; [assumption|reflexivity].
Qed.

(** X12.  [newRandom] accepts a fixed total size of 1, 2 or 3 bytes
    without error, and the first [Object()] call of the source it built
    panics with a division by zero. *)
Theorem newRandom_accepts_sizes_that_panic global o w :
  randSize o = false -> 1 <= totalSize o <= 3 ->
  1 <= RandomOpts.size (random o) ->
  exists c,
    newRandom NewSource global o = Returns (Some (PlainSrc c), None) /\
    plainSrc.Object c w = Panics DivideByZero.
Proof.
  intros Hfixed Htotal Hsize.
  assert (Hmax : 3 <= maxAlloc) by (unfold maxAlloc; lia).
  destruct (newRandom_cases NewSource global o)
    as [[Hbad _] | [(_ & _ & c & Hc) | (_ & Hbig & _)]]; [lia | | lia].
  exists c. split; [exact Hc|].
  destruct (newRandom_built global o c Hc) as (_ & _ & Hshape).
  apply (plainSrc_Object_small c w (totalSize o) (plainSrc.rng c)); [|lia].
  rewrite Hshape. cbn [plainSrc.o plainSrc.rng]. unfold getSize. now rewrite Hfixed.
Qed.

(** With an explicit seed, what the constructors build does not
    depend on the value that the package-level generator hands out. *)
Theorem constructors_ignore_global_when_seeded g1 g2 o :
  (RandomOpts.seed (random o) <> None ->
   newRandom NewSource g1 o = newRandom NewSource g2 o) /\
  (TextOpts.seed (text o) <> None ->
   newText NewSource g1 o = newText NewSource g2 o).
Proof.
  split; intros Hseed.
  - unfold newRandom, seeded.
    destruct (RandomOpts.seed (random o)); [reflexivity|contradiction].
  - unfold newText, seeded.
    destruct (TextOpts.seed (text o)); [reflexivity|contradiction].
Qed.

Lemma output_seeded global seed :
  seeded NewSource global seed
  = MathRand.New (MathRand.output (seeded NewSource global seed)).
Proof. unfold seeded. destruct seed; reflexivity. Qed.

(** X13.  A source that a constructor returns holds a seed buffer of
    exactly [min(size, totalSize)] bytes, cut from the first values of its
    seeded generator, seven bytes per value and low byte first, and an
    object that is still blank: no stream, no name, size 0, content type
    [text/plain].  [newText] passes the capped block size to the circular
    buffer and starts its counter at 0, [newRandom] passes [totalSize]
    and holds an empty builder. *)
Theorem constructors_initial_state global o :
  (forall c,
     newRandom NewSource global o = Returns (Some (PlainSrc c), None) ->
     len (data (plainSrc.buf c))
     = Z.min (RandomOpts.size (random o)) (totalSize o) /\
     data (plainSrc.buf c)
     = map (MathRand.stream_byte
              (MathRand.output
                 (seeded NewSource global (RandomOpts.seed (random o)))) 0)
           (seq 0 (List.length (data (plainSrc.buf c)))) /\
     want (plainSrc.buf c) = totalSize o /\
     plainSrc.o c = o /\
     plainSrc.obj c = mkObject None "" "text/plain" 0 (namePrefix o) /\
     plainSrc.builder c = [] /\
     MathRand.drawn (plainSrc.rng c)
     = ((List.length (data (plainSrc.buf c)) + 6) / 7)%nat) /\
  (forall t,
     newText NewSource global o = (Some (TextSrc t), None) ->
     len (data (textSrc.buf t))
     = Z.min (TextOpts.size (text o)) (totalSize o) /\
     data (textSrc.buf t)
     = map (MathRand.stream_byte
              (MathRand.output
                 (seeded NewSource global (TextOpts.seed (text o)))) 0)
           (seq 0 (List.length (data (textSrc.buf t)))) /\
     want (textSrc.buf t) = Z.min (TextOpts.size (text o)) (totalSize o) /\
     textSrc.o t = o /\ textSrc.counter t = 0 /\
     textSrc.obj t = mkObject None "" "text/plain" 0 (namePrefix o) /\
     MathRand.drawn (textSrc.rng t)
     = ((List.length (data (textSrc.buf t)) + 6) / 7)%nat).
Proof.
  split.
  - intros c Hc. destruct (newRandom_built global o c Hc) as (Hpos & _ & ->).
    cbn [plainSrc.buf plainSrc.o plainSrc.obj plainSrc.builder plainSrc.rng
         data want].
    set (n := Z.to_nat (Z.min (RandomOpts.size (random o)) (totalSize o))).
    pose proof (output_seeded global (RandomOpts.seed (random o))) as Hs.
    set (src := MathRand.output
                  (seeded NewSource global (RandomOpts.seed (random o)))) in *.
    rewrite Hs. destruct (Read_New src n) as (Hbytes & Hdrawn & _).
    rewrite Hbytes, Hdrawn. rewrite length_map, length_seq.
    repeat split; try reflexivity.
    unfold len. rewrite length_map, length_seq. unfold n. lia.
  - intros t Ht. destruct (newText_built global o t Ht) as (Hpos & ->).
    cbn [textSrc.buf textSrc.o textSrc.obj textSrc.counter textSrc.rng
         data want].
    set (n := Z.to_nat (Z.min (TextOpts.size (text o)) (totalSize o))).
    pose proof (output_seeded global (TextOpts.seed (text o))) as Hs.
    set (src := MathRand.output
                  (seeded NewSource global (TextOpts.seed (text o)))) in *.
    rewrite Hs. destruct (Read_New src n) as (Hbytes & Hdrawn & _).
    rewrite Hbytes, Hdrawn. rewrite length_map, length_seq.
    repeat split; try reflexivity.
    unfold len. rewrite length_map, length_seq. unfold n. lia.
Qed.

End Interface.

Lemma newRandom_accepts_sizes_that_panic_witness :
  randSize (options 2 false 0 0) = false /\
  1 <= totalSize (options 2 false 0 0) <= 3 /\
  1 <= RandomOpts.size (random (options 2 false 0 0)) /\
  exists c,
    newRandom counting 7 (options 2 false 0 0) = Returns (Some (PlainSrc c), None) /\
    plainSrc.Object c letters_world = Panics DivideByZero.
Proof.
  split; [reflexivity|]. split; [vm_compute; split; discriminate|].
  split; [vm_compute; discriminate|].
  apply (newRandom_accepts_sizes_that_panic counting 7 (options 2 false 0 0)
           letters_world);
    [reflexivity | vm_compute; split; discriminate | vm_compute; discriminate].
Defined.

Lemma constructors_ignore_global_when_seeded_witness :
  RandomOpts.seed (random (options 8 false 2 4)) <> None /\
  newRandom counting 1 (options 8 false 2 4)
  = newRandom counting 2 (options 8 false 2 4) /\
  TextOpts.seed (text (options 8 false 2 4)) <> None /\
  newText counting 1 (options 8 false 2 4)
  = newText counting 2 (options 8 false 2 4).
Proof.
  assert (H1 : RandomOpts.seed (random (options 8 false 2 4)) <> None)
    by discriminate.
  assert (H2 : TextOpts.seed (text (options 8 false 2 4)) <> None)
    by discriminate.
  split; [exact H1|].
  split; [apply (proj1 (constructors_ignore_global_when_seeded counting 1 2
                          (options 8 false 2 4)) H1)|].
  split; [exact H2|].
  apply (proj2 (constructors_ignore_global_when_seeded counting 1 2
                  (options 8 false 2 4)) H2).
Defined.

Lemma constructors_initial_state_witness :
  newText counting 7 (options 8 false 2 4) = (Some (TextSrc text8), None) /\
  len (data (textSrc.buf text8))
  = Z.min (TextOpts.size (text (options 8 false 2 4)))
          (totalSize (options 8 false 2 4)) /\
  data (textSrc.buf text8) = [x00; x01; x02; x03] /\
  data (textSrc.buf text8)
  = map (MathRand.stream_byte
           (MathRand.output
              (seeded counting 7 (TextOpts.seed (text (options 8 false 2 4))))) 0)
        (seq 0 (List.length (data (textSrc.buf text8)))) /\
  textSrc.counter text8 = 0 /\
  want (textSrc.buf text8) = 4 /\
  MathRand.drawn (textSrc.rng text8) = 1%nat.
Proof.
  assert (H : newText counting 7 (options 8 false 2 4) = (Some (TextSrc text8), None))
    by (vm_compute; reflexivity).
  split; [exact H|].
  pose proof (proj2 (constructors_initial_state counting 7 (options 8 false 2 4))
                text8 H) as (H1 & H2 & H3 & _ & H5 & _ & H7).
  split; [exact H1|]. split; [vm_compute; reflexivity|]. split; [exact H2|].
  split; [exact H5|]. split; [rewrite H3; reflexivity|].
  rewrite H7. vm_compute. reflexivity.
Defined.

(** * Properties of the option builders and of [String] *)

Section OptionBuilders.

Variable NewSource : Z -> MathRand.Source.

Lemma newRandom_seed_length global o c :
  newRandom NewSource global o = Returns (Some (PlainSrc c), None) ->
  len (data (plainSrc.buf c)) = Z.min (RandomOpts.size (random o)) (totalSize o).
Proof.
  intros Hc. destruct (newRandom_built NewSource global o c Hc) as (Hpos & _ & ->).
  cbn [plainSrc.buf data]. unfold MathRand.Read, len. cbn [fst].
  rewrite length_read_bytes. lia.
Qed.

Lemma newText_seed_length global o t :
  newText NewSource global o = (Some (TextSrc t), None) ->
  len (data (textSrc.buf t)) = Z.min (TextOpts.size (text o)) (totalSize o) /\
  want (textSrc.buf t) = Z.min (TextOpts.size (text o)) (totalSize o).
Proof.
  intros Ht. destruct (newText_built NewSource global o t Ht) as (Hpos & ->).
  cbn [textSrc.buf data want]. unfold MathRand.Read, len. cbn [fst].
  rewrite length_read_bytes. lia.
Qed.

(** X14.  [Apply] of either option block fails exactly when its size is
    [<= 0], and then leaves the options untouched; when it succeeds it
    replaces its own block, selects its own constructor and keeps every
    other field. *)
Theorem Apply_validates_then_sets ro to opts :
  (RandomOpts.size ro <= 0 ->
   RandomOpts_Apply ro opts = (opts, Some (ErrorsNew "random: size <= 0"))) /\
  (0 < RandomOpts.size ro ->
   snd (RandomOpts_Apply ro opts) = None /\
   src (fst (RandomOpts_Apply ro opts)) = Some SrcNewRandom /\
   random (fields (fst (RandomOpts_Apply ro opts))) = ro /\
   text (fields (fst (RandomOpts_Apply ro opts))) = text (fields opts) /\
   totalSize (fields (fst (RandomOpts_Apply ro opts))) = totalSize (fields opts) /\
   randSize (fields (fst (RandomOpts_Apply ro opts))) = randSize (fields opts) /\
   compRatio (fields (fst (RandomOpts_Apply ro opts))) = compRatio (fields opts) /\
   compWindow (fields (fst (RandomOpts_Apply ro opts))) = compWindow (fields opts)) /\
  (TextOpts.size to <= 0 ->
   TextOpts_Apply to opts = (opts, Some (ErrorsNew "text: size <= 0"))) /\
  (0 < TextOpts.size to ->
   snd (TextOpts_Apply to opts) = None /\
   src (fst (TextOpts_Apply to opts)) = Some SrcNewText /\
   text (fields (fst (TextOpts_Apply to opts))) = to /\
   random (fields (fst (TextOpts_Apply to opts))) = random (fields opts) /\
   totalSize (fields (fst (TextOpts_Apply to opts))) = totalSize (fields opts) /\
   randSize (fields (fst (TextOpts_Apply to opts))) = randSize (fields opts) /\
   compRatio (fields (fst (TextOpts_Apply to opts))) = compRatio (fields opts) /\
   compWindow (fields (fst (TextOpts_Apply to opts))) = compWindow (fields opts)).
Proof.
  unfold RandomOpts_Apply, TextOpts_Apply, RandomOpts_validate, TextOpts_validate.
  destruct (Z.leb_spec (RandomOpts.size ro) 0);
    destruct (Z.leb_spec (TextOpts.size to) 0);
    repeat split; intros; try lia; reflexivity.
Qed.

(** X15.  Options accepted by [Apply] do not guarantee construction: the
    selected constructor [newRandom] returns the size error when
    [totalSize <= 0], succeeds when [totalSize] lies between 1 and the
    allocation limit of the runtime, with a seed buffer of
    [min(size, totalSize)] bytes, and panics beyond that limit. *)
Theorem accepted_options_construct global ro opts opts' :
  RandomOpts_Apply ro opts = (opts', None) ->
  (totalSize (fields opts) <= 0 ->
   exists err, construct NewSource global opts' = Some (Returns (None, Some err))) /\
  (1 <= totalSize (fields opts) <= maxAlloc ->
   exists c,
     construct NewSource global opts' = Some (Returns (Some (PlainSrc c), None)) /\
     len (data (plainSrc.buf c))
     = Z.min (RandomOpts.size ro) (totalSize (fields opts))) /\
  (maxAlloc < totalSize (fields opts) ->
   exists p, construct NewSource global opts' = Some (Panics p)).
Proof.
  unfold RandomOpts_Apply, RandomOpts_validate.
  destruct (Z.leb_spec (RandomOpts.size ro) 0) as [|Hsize]; [discriminate|].
  intros [= <-]. unfold construct. cbn [src fields].
  set (o := mkOptions _ _ _ _ _ _ _).
  assert (H0 : 0 <= maxAlloc) by (unfold maxAlloc; lia).
  destruct (newRandom_cases NewSource global o)
    as [[Hbad [e He]] | [(Hpos & Hfit & c & Hc) | (Hpos & Hbig & Hp)]];
    cbn [random totalSize o RandomOpts.size] in *.
  - split; [|split]; intros Ht; try lia. exists e. now rewrite He.
  - split; [|split]; intros Ht; try lia. exists c. split; [now rewrite Hc|].
    exact (newRandom_seed_length global o c Hc).
  - split; [|split]; intros Ht; try lia. eexists. now rewrite Hp.
Qed.

(** X16.  The data option applied last decides the constructor, both
    option blocks are kept, and an [Apply] that fails in between changes
    nothing. *)
Theorem last_Apply_selects_constructor global ro to opts :
  0 < RandomOpts.size ro ->
  (0 < TextOpts.size to ->
   src (fst (TextOpts_Apply to (fst (RandomOpts_Apply ro opts)))) = Some SrcNewText /\
   src (fst (RandomOpts_Apply ro (fst (TextOpts_Apply to opts)))) = Some SrcNewRandom /\
   fields (fst (TextOpts_Apply to (fst (RandomOpts_Apply ro opts))))
   = fields (fst (RandomOpts_Apply ro (fst (TextOpts_Apply to opts)))) /\
   random (fields (fst (TextOpts_Apply to (fst (RandomOpts_Apply ro opts))))) = ro /\
   text (fields (fst (TextOpts_Apply to (fst (RandomOpts_Apply ro opts))))) = to) /\
  (TextOpts.size to <= 0 ->
   fst (TextOpts_Apply to (fst (RandomOpts_Apply ro opts)))
   = fst (RandomOpts_Apply ro opts) /\
   construct NewSource global
     (fst (TextOpts_Apply to (fst (RandomOpts_Apply ro opts))))
   = Some (newRandom NewSource global (fields (fst (RandomOpts_Apply ro opts))))).
Proof.
  intros Hro.
  unfold RandomOpts_Apply, TextOpts_Apply, RandomOpts_validate, TextOpts_validate.
  destruct (Z.leb_spec (RandomOpts.size ro) 0); [lia|].
  destruct (Z.leb_spec (TextOpts.size to) 0); split; intros; try lia;
    repeat split.
Qed.

(** The builder chain [WithRandomData().RngSeed(s).Size(n)] (in
    either order) is accepted by [Apply] exactly when [n > 0], and then
    stores seed [s] and size [n]; the defaults (no seed, 128 KiB) are
    accepted.  The same holds for [WithTextData]. *)
Theorem builder_chain s n opts :
  RandomOpts_Size n (RandomOpts_RngSeed s WithRandomData)
  = RandomOpts_RngSeed s (RandomOpts_Size n WithRandomData) /\
  (snd (RandomOpts_Apply (RandomOpts_Size n (RandomOpts_RngSeed s WithRandomData)) opts)
   = None <-> 0 < n) /\
  (0 < n ->
   random (fields (fst (RandomOpts_Apply
                          (RandomOpts_Size n (RandomOpts_RngSeed s WithRandomData))
                          opts)))
   = RandomOpts.mk (Some s) n) /\
  RandomOpts_Apply WithRandomData opts
  = (mkCell (mkOptions (totalSize (fields opts)) (randSize (fields opts))
               (RandomOpts.mk None 131072) (text (fields opts))
               (compRatio (fields opts)) (compWindow (fields opts))
               (namePrefix (fields opts)))
            (Some SrcNewRandom), None) /\
  TextOpts_Size n (TextOpts_RngSeed s WithTextData)
  = TextOpts_RngSeed s (TextOpts_Size n WithTextData) /\
  (snd (TextOpts_Apply (TextOpts_Size n (TextOpts_RngSeed s WithTextData)) opts)
   = None <-> 0 < n) /\
  (0 < n ->
   text (fields (fst (TextOpts_Apply
                        (TextOpts_Size n (TextOpts_RngSeed s WithTextData)) opts)))
   = TextOpts.mk (Some s) n) /\
  TextOpts_Apply WithTextData opts
  = (mkCell (mkOptions (totalSize (fields opts)) (randSize (fields opts))
               (random (fields opts)) (TextOpts.mk None 131072)
               (compRatio (fields opts)) (compWindow (fields opts))
               (namePrefix (fields opts)))
            (Some SrcNewText), None).
Proof.
  unfold RandomOpts_Apply, TextOpts_Apply, RandomOpts_validate, TextOpts_validate.
  cbn [RandomOpts_Size RandomOpts_RngSeed RandomOpts.size RandomOpts.seed
       TextOpts_Size TextOpts_RngSeed TextOpts.size TextOpts.seed].
  destruct (Z.leb_spec n 0); repeat split; intros; try lia; try discriminate;
    reflexivity.
Qed.

(** What [String()] reports for a freshly constructed source: in
    randomized mode the upper bound [totalSize]; in fixed mode the wanted
    length of the buffer, which is [totalSize] for the Random Source but
    the capped block size [min(size, totalSize)] for the Text Source. *)
Theorem String_of_constructed global o :
  (forall c,
     newRandom NewSource global o = Returns (Some (PlainSrc c), None) ->
     plainSrc_String c
     = if randSize o
       then ("Random data; random size up to "
               ++ sprint_d (totalSize o) ++ " bytes")%string
       else ("Random data; " ++ sprint_d (totalSize o) ++ " bytes total")%string) /\
  (forall t,
     newText NewSource global o = (Some (TextSrc t), None) ->
     textSrc_String t
     = if randSize o
       then ("Text data; random size up to "
               ++ sprint_d (totalSize o) ++ " bytes")%string
       else ("Text data; "
               ++ sprint_d (Z.min (TextOpts.size (text o)) (totalSize o))
               ++ " bytes total")%string).
Proof.
  split.
  - intros c Hc. destruct (newRandom_built NewSource global o c Hc) as (Hpos & _ & ->).
    unfold plainSrc_String, sprint_int64. cbn.
    destruct (Z.ltb_spec (totalSize o) 0); [lia|]. reflexivity.
  - intros t Ht. destruct (newText_built NewSource global o t Ht) as (Hpos & ->).
    unfold textSrc_String, sprint_int64. cbn.
    destruct (Z.ltb_spec (totalSize o) 0); [lia|].
    destruct (Z.ltb_spec (Z.min (TextOpts.size (text o)) (totalSize o)) 0); [lia|].
    reflexivity.
Qed.

End OptionBuilders.

Lemma accepted_options_construct_witness :
  RandomOpts_Apply WithRandomData (mkCell (options 8 false 0 0) None)
  = (fst (RandomOpts_Apply WithRandomData (mkCell (options 8 false 0 0) None)), None) /\
  1 <= totalSize (fields (mkCell (options 8 false 0 0) None)) <= maxAlloc /\
  exists c,
    construct counting 7
      (fst (RandomOpts_Apply WithRandomData (mkCell (options 8 false 0 0) None)))
    = Some (Returns (Some (PlainSrc c), None)) /\
    len (data (plainSrc.buf c))
    = Z.min (RandomOpts.size WithRandomData)
            (totalSize (fields (mkCell (options 8 false 0 0) None))).
Proof.
  split; [reflexivity|]. split; [vm_compute; split; discriminate|].
  apply (proj1 (proj2 (accepted_options_construct counting 7 WithRandomData
                         (mkCell (options 8 false 0 0) None)
                         (fst (RandomOpts_Apply WithRandomData
                                 (mkCell (options 8 false 0 0) None)))
                         eq_refl))).
  vm_compute. split; discriminate.
Defined.

Lemma last_Apply_selects_constructor_witness :
  0 < RandomOpts.size WithRandomData /\ 0 < TextOpts.size WithTextData /\
  src (fst (TextOpts_Apply WithTextData
              (fst (RandomOpts_Apply WithRandomData
                      (mkCell (options 8 false 0 0) None)))))
  = Some SrcNewText.
Proof.
  assert (H1 : 0 < RandomOpts.size WithRandomData) by reflexivity.
  assert (H2 : 0 < TextOpts.size WithTextData) by reflexivity.
  split; [exact H1|]. split; [exact H2|].
  apply (proj1 (last_Apply_selects_constructor counting 7 WithRandomData
                  WithTextData (mkCell (options 8 false 0 0) None) H1) H2).
Defined.


(** * The Text Source within one window, and on a flaky secure source *)

Section TextWindow.

Lemma build_loop_single fuel inner size ratio window w b w1 :
  0 < size ->
  genData inner size ratio window w = Returns (b, w1) ->
  len b = size ->
  build_loop (S fuel) inner size ratio window [] w = Returns (b, w1).
Proof.
  intros Hs Hg Hb. rewrite build_loop_eq. change (len (@nil byte)) with 0.
  destruct (Z.ltb_spec 0 size); [|lia].
  rewrite Z.sub_0_r, Hg. cbn [bind fst snd app].
  rewrite build_loop_eq, Hb, Z.ltb_irrefl. reflexivity.
Qed.

Lemma Reset_full (b : list byte) (wanted n : Z) :
  0 <= n -> len b = n ->
  Reset (mkCircularBuffer b wanted) n = Returns (drain b (Z.to_nat n)).
Proof.
  intros Hn Hb. unfold Reset. cbn [data].
  destruct (Z.ltb_spec n 0); [lia|].
  destruct (Z.ltb_spec 0 n); destruct (Z.eqb_spec (len b) 0); cbn [andb];
    try reflexivity; lia.
Qed.

(** X17.  An object of a Text Source with [compRatio > 0] whose size fits
    in the window is built by one [genData] call: it reads
    [uniqueStrLen] secure bytes ([Size / compRatio], or 1 for a size
    below the ratio) and every payload byte [i] is byte
    [i mod uniqueStrLen] of that read. *)
Theorem textSrc_payload_periodic fuel s w :
  0 < compRatio (textSrc.o s) ->
  1 <= fst (getSize (textSrc.o s) (textSrc.rng s)) <= compWindow (textSrc.o s) ->
  next_read_ok w ->
  (Z.to_nat (fst (getSize (textSrc.o s) (textSrc.rng s))) <= fuel)%nat ->
  exists s',
    textSrc.Object fuel s w
    = Returns (s', after_read
                     (Z.to_nat (fst (fst (genData_plan
                        (fst (getSize (textSrc.o s) (textSrc.rng s)))
                        (compRatio (textSrc.o s)) (compWindow (textSrc.o s)))))) w) /\
    len (data (textSrc.buf s')) = fst (getSize (textSrc.o s) (textSrc.rng s)) /\
    forall i,
      (i < List.length (data (textSrc.buf s')))%nat ->
      nth_error (data (textSrc.buf s')) i
      = nth_error
          (fresh (Z.to_nat (fst (fst (genData_plan
                    (fst (getSize (textSrc.o s) (textSrc.rng s)))
                    (compRatio (textSrc.o s)) (compWindow (textSrc.o s)))))) w)
          (i mod Z.to_nat (fst (fst (genData_plan
                    (fst (getSize (textSrc.o s) (textSrc.rng s)))
                    (compRatio (textSrc.o s)) (compWindow (textSrc.o s)))))).
Proof.
  intros Hratio Hsize Hok Hfuel. unfold textSrc.Object.
  destruct (getSize (textSrc.o s) (textSrc.rng s)) as [n rng1]. cbn [fst] in *.
  set (ratio := compRatio (textSrc.o s)) in *.
  set (window := compWindow (textSrc.o s)) in *.
  assert (Hgen : exists b,
    genData fuel n ratio window w
    = Returns (b, after_read (Z.to_nat (fst (fst (genData_plan n ratio window)))) w) /\
    len b = n /\
    forall i, (i < List.length b)%nat ->
      nth_error b i
      = nth_error (fresh (Z.to_nat (fst (fst (genData_plan n ratio window)))) w)
                  (i mod Z.to_nat (fst (fst (genData_plan n ratio window))))).
  { destruct (Z_lt_le_dec n ratio) as [Hsmall|Hbig].
    - destruct (genData_run_periodic fuel n ratio window w 1 0 (Z.to_nat n))
        as (b & Hrun & Hlen & Hper); try lia; try assumption.
      { rewrite plan_small by lia. rewrite Z2Nat.id by lia. now rewrite Z.mul_1_r. }
      rewrite plan_small by lia. cbn [fst]. exists b.
      split; [exact Hrun|]. split; [lia|exact Hper].
    - destruct (quot_rem_pos n ratio) as (Hq & Hr & Heq); [lia|lia|].
      assert (Hq1 : 1 <= Z.quot n ratio).
      { destruct (Z.eq_dec (Z.quot n ratio) 0) as [E|]; [|lia].
        apply Z.quot_small_iff in E; lia. }
      destruct (genData_run_periodic fuel n ratio window w
                  (Z.quot n ratio) (Z.rem n ratio) (Z.to_nat ratio))
        as (b & Hrun & Hlen & Hper); try lia; try assumption.
      { rewrite plan_in_window by lia. rewrite Z2Nat.id by lia.
        now rewrite Z.mul_comm. }
      { nia. }
      rewrite plan_in_window by lia. cbn [fst]. exists b.
      split; [exact Hrun|]. split; [lia|exact Hper]. }
  destruct Hgen as (b & Hrun & Hlen & Hper).
  destruct fuel as [|fuel]; [lia|].
  rewrite (build_loop_single fuel (S fuel) n ratio window w b _ ltac:(lia) Hrun Hlen).
  cbn [bind fst snd]. rewrite Reset_full by lia. cbn [bind].
  eexists. split; [reflexivity|]. cbn [textSrc.buf data]. split; assumption.
Qed.

Lemma textSrc_payload_periodic_witness :
  0 < compRatio (textSrc.o text14) /\
  1 <= fst (getSize (textSrc.o text14) (textSrc.rng text14))
    <= compWindow (textSrc.o text14) /\
  next_read_ok letters_world /\
  (Z.to_nat (fst (getSize (textSrc.o text14) (textSrc.rng text14))) <= 14)%nat /\
  exists s',
    textSrc.Object 14 text14 letters_world
    = Returns (s', after_read
                     (Z.to_nat (fst (fst (genData_plan
                        (fst (getSize (textSrc.o text14) (textSrc.rng text14)))
                        (compRatio (textSrc.o text14))
                        (compWindow (textSrc.o text14)))))) letters_world) /\
    len (data (textSrc.buf s'))
    = fst (getSize (textSrc.o text14) (textSrc.rng text14)) /\
    forall i,
      (i < List.length (data (textSrc.buf s')))%nat ->
      nth_error (data (textSrc.buf s')) i
      = nth_error
          (fresh (Z.to_nat (fst (fst (genData_plan
                    (fst (getSize (textSrc.o text14) (textSrc.rng text14)))
                    (compRatio (textSrc.o text14))
                    (compWindow (textSrc.o text14)))))) letters_world)
          (i mod Z.to_nat (fst (fst (genData_plan
                    (fst (getSize (textSrc.o text14) (textSrc.rng text14)))
                    (compRatio (textSrc.o text14))
                    (compWindow (textSrc.o text14)))))).
Proof.
  assert (H1 : 0 < compRatio (textSrc.o text14)) by reflexivity.
  assert (H2 : 1 <= fst (getSize (textSrc.o text14) (textSrc.rng text14))
               <= compWindow (textSrc.o text14))
    by (vm_compute; split; discriminate).
  assert (H4 : (Z.to_nat (fst (getSize (textSrc.o text14) (textSrc.rng text14)))
                <= 14)%nat) by (vm_compute; lia).
  split; [exact H1|]. split; [exact H2|]. split; [reflexivity|]. split; [exact H4|].
  apply (textSrc_payload_periodic 14 text14 letters_world H1 H2 eq_refl H4).
Defined.

Lemma genData_uncompressed_failure inner reqSize ratio window w :
  ratio <= 0 -> 1 <= reqSize -> faulty w (reads w) = true ->
  genData inner reqSize ratio window w
  = Returns ([], mkWorld (entropy w) (cursor w) (faulty w) (S (reads w))
                   (stdout w ++ ["error:"%string])
                   (partial w)).
Proof.
  intros Hr Hreq Hbad. unfold genData. rewrite plan_uncompressed by lia.
  rewrite make_bytes_ok by lia. cbn [bind]. unfold Read.
  destruct (Z.to_nat reqSize) as [|n] eqn:E; [lia|].
  rewrite Hbad. reflexivity.
Qed.

(** X18.  A failed secure read is retried by the accumulation loop of
    [textSrc.Object]: if the first read fails and the second works, the
    call prints one [error:] line and still returns the full payload,
    the [Size] bytes of the second read. *)
Theorem textSrc_Object_retries_failed_read fuel s w :
  compRatio (textSrc.o s) <= 0 ->
  1 <= fst (getSize (textSrc.o s) (textSrc.rng s)) ->
  faulty w (reads w) = true -> faulty w (S (reads w)) = false ->
  (2 <= fuel)%nat ->
  exists s' w',
    textSrc.Object fuel s w = Returns (s', w') /\
    data (textSrc.buf s')
    = fresh (Z.to_nat (fst (getSize (textSrc.o s) (textSrc.rng s)))) w /\
    stdout w' = stdout w ++ ["error:"%string] /\
    reads w' = S (S (reads w)).
Proof.
  intros Hr Hsize Hbad Hgood Hfuel. unfold textSrc.Object.
  destruct (getSize (textSrc.o s) (textSrc.rng s)) as [n rng1]. cbn [fst] in *.
  destruct fuel as [|[|fuel]]; try lia.
  rewrite build_loop_eq. change (len (@nil byte)) with 0.
  destruct (Z.ltb_spec 0 n); [|lia].
  rewrite Z.sub_0_r, genData_uncompressed_failure by (auto; lia).
  cbn [bind fst snd app].
  set (w1 := mkWorld (entropy w) (cursor w) (faulty w) (S (reads w))
               (stdout w ++ ["error:"%string])
                   (partial w)).
  assert (Hok1 : next_read_ok w1) by exact Hgood.
  rewrite (build_loop_single fuel (S (S fuel)) n _ _ w1
             (fresh (Z.to_nat n) w1) (after_read (Z.to_nat n) w1));
    [| lia | apply genData_uncompressed_run; auto; lia
     | rewrite len_fresh; lia].
  cbn [bind fst snd]. rewrite Reset_full by (try rewrite len_fresh; lia).
  cbn [bind]. do 2 eexists. split; [reflexivity|].
  cbn [textSrc.buf data]. split; [reflexivity|].
  destruct (Z.to_nat n) as [|m] eqn:E; [lia|]. split; reflexivity.
Qed.

Lemma textSrc_Object_retries_failed_read_witness :
  compRatio (textSrc.o text8_plain) <= 0 /\
  1 <= fst (getSize (textSrc.o text8_plain) (textSrc.rng text8_plain)) /\
  faulty flaky_world (reads flaky_world) = true /\
  faulty flaky_world (S (reads flaky_world)) = false /\
  (2 <= 2)%nat /\
  exists s' w',
    textSrc.Object 2 text8_plain flaky_world = Returns (s', w') /\
    data (textSrc.buf s')
    = fresh (Z.to_nat (fst (getSize (textSrc.o text8_plain)
                                    (textSrc.rng text8_plain)))) flaky_world /\
    stdout w' = stdout flaky_world ++ ["error:"%string] /\
    reads w' = S (S (reads flaky_world)).
Proof.
  assert (H1 : compRatio (textSrc.o text8_plain) <= 0) by (vm_compute; discriminate).
  assert (H2 : 1 <= fst (getSize (textSrc.o text8_plain) (textSrc.rng text8_plain)))
    by (vm_compute; discriminate).
  split; [exact H1|]. split; [exact H2|]. split; [reflexivity|].
  split; [reflexivity|]. split; [lia|].
  apply (textSrc_Object_retries_failed_read 2 text8_plain flaky_world
           H1 H2 eq_refl eq_refl).
  lia.
Defined.

End TextWindow.

Lemma genData_plan_in_range_witness :
  int64 12 /\ int64 4 /\ int64 1000000 /\
  int64 (fst (fst (genData_plan 12 4 1000000))) /\
  int64 (snd (fst (genData_plan 12 4 1000000))) /\
  int64 (snd (genData_plan 12 4 1000000)).
Proof.
  assert (H1 : int64 12) by (unfold int64; lia).
  assert (H2 : int64 4) by (unfold int64; lia).
  assert (H3 : int64 1000000) by (unfold int64; lia).
  split; [exact H1|]. split; [exact H2|]. split; [exact H3|].
  apply (genData_plan_in_range 12 4 1000000 H1 H2 H3).
Defined.
